(** * Funding-rate explorer: the aggregation pipeline of [app.py]

    A shallow embedding of [get_min_max_date] and [process_data].

    A data frame is a list of rows, in row order.  A calendar day is an
    integer day number; the value pandas returns for the minimum or maximum
    of an empty date column ([NaT]) is [None].

    Funding rates are a float64 column in the source.  The tables of the
    first part carry exact rationals ([Qc], canonical fractions): they decide
    every property of the stages that does not depend on rounding.  The
    module [Float64] carries binary64 rates through the same stages and
    decides the properties that do. *)

From Stdlib Require Import ZArith QArith Qcanon List String Ascii Bool Lia.
From Stdlib Require Import Sorted Permutation.
From Stdlib Require Import PrimFloat.
Import ListNotations.

Local Open Scope Z_scope.

#[local] Set Warnings "-inexact-float".

(** ** Tables *)

(** A row of the event table, as [load_data] leaves it (the columns that
    [process_data] reads). *)
Module Ev.
Record t := mk
  { Base : string; Exchange : string; Date : Z; FundingRate : Qc }.
End Ev.

(** A row of [daily_sum] after the grouped sum. *)
Module Daily.
Record t := mk
  { Base : string; Exchange : string; Date : Z; DailyFunding : Qc }.
End Daily.

(** A row of [daily_sum] once the [CumulativeFunding] column is assigned. *)
Module Cum.
Record t := mk
  { Base : string; Exchange : string; Date : Z;
    DailyFunding : Qc; CumulativeFunding : Qc }.
End Cum.

(** A row of [merged]: the join keys once, every other column with its
    suffix. *)
Module Merged.
Record t := mk
  { Base : string; Date : Z;
    Exchange_a : string; DailyFunding_a : Qc; CumulativeFunding_a : Qc;
    Exchange_b : string; DailyFunding_b : Qc; CumulativeFunding_b : Qc }.
End Merged.

(** A row of [pair_df_2025], which is what [process_data] returns. *)
Module Pair.
Record t := mk
  { Base : string; Date : Z;
    Exchange_a : string; DailyFunding_a : Qc; CumulativeFunding_a : Qc;
    Exchange_b : string; DailyFunding_b : Qc; CumulativeFunding_b : Qc;
    along_bshort : Qc; blong_ashort : Qc }.
End Pair.

Definition frame := list Ev.t.

(** ** Dates that may be [NaT] *)

Definition timestamp := option Z.

Definition NaT : timestamp := None.

(** Comparisons with [NaT] are false, whichever side it is on. *)
Definition ts_lt (x y : timestamp) : bool :=
  match x, y with
  | Some a, Some b => a <? b
  | _, _ => false
  end.

Definition ts_le (x y : timestamp) : bool :=
  match x, y with
  | Some a, Some b => a <=? b
  | _, _ => false
  end.

(** Python's two-argument [max] and [min]: the first argument is kept unless
    the second compares strictly beyond it. *)
Definition py_max (x y : timestamp) : timestamp :=
  if ts_lt x y then y else x.

Definition py_min (x y : timestamp) : timestamp :=
  if ts_lt y x then y else x.

(** [Series.min()] and [Series.max()] of a date column. *)
Definition series_min (col : list Z) : timestamp :=
  match col with
  | [] => NaT
  | d :: rest => Some (fold_left Z.min rest d)
  end.

Definition series_max (col : list Z) : timestamp :=
  match col with
  | [] => NaT
  | d :: rest => Some (fold_left Z.max rest d)
  end.

(** ** [get_min_max_date] *)

Definition get_min_max_date (df : frame) (asset exchange : string)
  : timestamp * timestamp :=
  let filtered :=
    filter (fun e => (Ev.Base e =? asset)%string
                     && (Ev.Exchange e =? exchange)%string) df in
  let min_date := series_min (map Ev.Date filtered) in
  let max_date := series_max (map Ev.Date filtered) in
  (min_date, max_date).

(** ** Sorting by columns *)

(** The order of [sort_values(["Base", "Exchange", "Date"])] and of the
    group keys of [groupby(["Base", "Exchange", "Date"])]. *)
Definition key : Type := string * string * Z.

Definition key_eqb (k1 k2 : key) : bool :=
  let '(b1, e1, d1) := k1 in
  let '(b2, e2, d2) := k2 in
  (b1 =? b2)%string && (e1 =? e2)%string && (d1 =? d2).

Definition key_leb (k1 k2 : key) : bool :=
  let '(b1, e1, d1) := k1 in
  let '(b2, e2, d2) := k2 in
  match String.compare b1 b2 with
  | Lt => true
  | Gt => false
  | Eq => match String.compare e1 e2 with
          | Lt => true
          | Gt => false
          | Eq => d1 <=? d2
          end
  end.

Section StableSort.
Context {A : Type} (kf : A -> key).

(** Insertion before the first row whose key is not smaller: rows with
    equal keys keep their order. *)
Fixpoint insert_row (x : A) (l : list A) : list A :=
  match l with
  | [] => [x]
  | y :: rest =>
      if key_leb (kf x) (kf y) then x :: y :: rest
      else y :: insert_row x rest
  end.

Fixpoint sort_rows (l : list A) : list A :=
  match l with
  | [] => []
  | x :: rest => insert_row x (sort_rows rest)
  end.
End StableSort.

(** ** The grouped sum *)

Definition ev_key (e : Ev.t) : key := (Ev.Base e, Ev.Exchange e, Ev.Date e).

(** One accumulator per group, groups in order of first appearance. *)
Fixpoint add_to_group (k : key) (v : Qc) (groups : list (key * Qc))
  : list (key * Qc) :=
  match groups with
  | [] => [(k, v)]
  | (k', s) :: rest =>
      if key_eqb k k' then (k', (s + v)%Qc) :: rest
      else (k', s) :: add_to_group k v rest
  end.

Definition group_sums (rows : frame) : list (key * Qc) :=
  fold_left (fun groups e => add_to_group (ev_key e) (Ev.FundingRate e) groups)
            rows [].

Definition daily_of_group (g : key * Qc) : Daily.t :=
  let '((b, e, d), s) := g in Daily.mk b e d s.

(** [groupby(["Base", "Exchange", "Date"])["FundingRate"].sum()
      .reset_index().rename(columns={"FundingRate": "DailyFunding"})]:
    one row per group, groups in key order. *)
Definition groupby_sum (rows : frame) : list Daily.t :=
  map daily_of_group (sort_rows fst (group_sums rows)).

Definition daily_key (r : Daily.t) : key :=
  (Daily.Base r, Daily.Exchange r, Daily.Date r).

Definition sort_values (rows : list Daily.t) : list Daily.t :=
  sort_rows daily_key rows.

(** ** The grouped cumulative sum *)

Definition group : Type := string * string.

Definition group_eqb (g1 g2 : group) : bool :=
  (fst g1 =? fst g2)%string && (snd g1 =? snd g2)%string.

Definition daily_group (r : Daily.t) : group :=
  (Daily.Base r, Daily.Exchange r).

(** [groupby(["Base", "Exchange"])["DailyFunding"].cumsum()]: one running
    total per group, rows visited in row order. *)
Fixpoint groupby_cumsum (acc : group -> Qc) (rows : list Daily.t)
  : list Cum.t :=
  match rows with
  | [] => []
  | r :: rest =>
      let g := daily_group r in
      let c := (acc g + Daily.DailyFunding r)%Qc in
      Cum.mk (Daily.Base r) (Daily.Exchange r) (Daily.Date r)
             (Daily.DailyFunding r) c
      :: groupby_cumsum (fun g' => if group_eqb g' g then c else acc g') rest
  end.

Definition no_total : group -> Qc := fun _ => 0%Qc.

(** ** The self-join *)

Definition join_rows (l r : Cum.t) : Merged.t :=
  Merged.mk (Cum.Base l) (Cum.Date l)
            (Cum.Exchange l) (Cum.DailyFunding l) (Cum.CumulativeFunding l)
            (Cum.Exchange r) (Cum.DailyFunding r) (Cum.CumulativeFunding r).

Definition join_match (l r : Cum.t) : bool :=
  (Cum.Base l =? Cum.Base r)%string && (Cum.Date l =? Cum.Date r).

(** [left.merge(right, on=["Base", "Date"], suffixes=("_a", "_b"))], an inner
    join: the rows of [left] in order, each with its matches in [right] in
    order. *)
Definition merge (left right : list Cum.t) : list Merged.t :=
  flat_map (fun l => map (join_rows l) (filter (join_match l) right)) left.

Definition with_advantages (m : Merged.t) : Pair.t :=
  Pair.mk (Merged.Base m) (Merged.Date m)
          (Merged.Exchange_a m) (Merged.DailyFunding_a m)
          (Merged.CumulativeFunding_a m)
          (Merged.Exchange_b m) (Merged.DailyFunding_b m)
          (Merged.CumulativeFunding_b m)
          (Merged.CumulativeFunding_b m - Merged.CumulativeFunding_a m)%Qc
          (Merged.CumulativeFunding_a m - Merged.CumulativeFunding_b m)%Qc.

(** ** [process_data], stage by stage *)

Definition window (df : frame) (asset exchange_a exchange_b : string)
  : timestamp * timestamp :=
  let '(min_exchange_a, max_exchange_a) :=
    get_min_max_date df asset exchange_a in
  let '(min_exchange_b, max_exchange_b) :=
    get_min_max_date df asset exchange_b in
  let min_date := py_max min_exchange_a min_exchange_b in
  let max_date := py_min max_exchange_a max_exchange_b in
  (min_date, max_date).

Definition in_window (w : timestamp * timestamp) (d : Z) : bool :=
  ts_le (fst w) (Some d) && ts_le (Some d) (snd w).

Definition subset (df : frame) (asset exchange_a exchange_b : string)
  : frame :=
  let w := window df asset exchange_a exchange_b in
  filter (fun e =>
            in_window w (Ev.Date e)
            && (Ev.Base e =? asset)%string
            && ((Ev.Exchange e =? exchange_a)%string
                || (Ev.Exchange e =? exchange_b)%string))
         df.

Definition cumulative (sub : frame) : list Cum.t :=
  let daily_sum := groupby_sum sub in
  let daily_sum := sort_values daily_sum in
  groupby_cumsum no_total daily_sum.

Definition pair_df_2025 (daily_sum : list Cum.t) : list Pair.t :=
  let merged := merge daily_sum daily_sum in
  map with_advantages
      (filter (fun m => String.ltb (Merged.Exchange_a m) (Merged.Exchange_b m))
              merged).

Definition requested (asset exchange_a exchange_b : string) (p : Pair.t)
  : bool :=
  (Pair.Base p =? asset)%string
  && (Pair.Exchange_a p =? exchange_a)%string
  && (Pair.Exchange_b p =? exchange_b)%string.

Definition process_data (df : frame) (asset exchange_a exchange_b : string)
  : list Pair.t :=
  let daily_sum := cumulative (subset df asset exchange_a exchange_b) in
  filter (requested asset exchange_a exchange_b) (pair_df_2025 daily_sum).

(** ** The scenario of the specification *)

Definition rate (n : Z) : Qc := Q2Qc (n # 10000).

Definition scenario : frame :=
  [ Ev.mk "BTC" "X" 1 (rate 1); Ev.mk "BTC" "X" 2 (rate 2);
    Ev.mk "BTC" "Y" 1 (rate (-1)); Ev.mk "BTC" "Y" 2 (rate 1) ].

(** ** Vocabulary of the properties *)

(** Rows in ascending key order. *)
Definition sorted_by {A : Type} (kf : A -> key) (l : list A) : Prop :=
  StronglySorted (fun x y => key_leb (kf x) (kf y) = true) l.

Definition Qsum (l : list Qc) : Qc := fold_right Qcplus 0%Qc l.

Definition cum_key (c : Cum.t) : key := (Cum.Base c, Cum.Exchange c, Cum.Date c).

Definition cum_group (c : Cum.t) : group := (Cum.Base c, Cum.Exchange c).

(** The [DailyFunding] of the rows of one (asset, venue) group. *)
Definition group_sum (g : group) (rows : list Daily.t) : Qc :=
  Qsum (map Daily.DailyFunding
            (filter (fun r => group_eqb (daily_group r) g) rows)).

(** The sum of the daily totals of one (asset, venue) series up to a day. *)
Definition daily_total (daily : list Daily.t) (asset venue : string) (day : Z)
  : Qc :=
  Qsum (map Daily.DailyFunding
            (filter (fun r => (Daily.Base r =? asset)%string
                              && (Daily.Exchange r =? venue)%string
                              && (Daily.Date r <=? day))
                    daily)).

(** The direct sum of the raw rates of one (asset, venue) series over the
    days from [start] to [day]. *)
Definition raw_total (df : frame) (asset venue : string)
                     (start : timestamp) (day : Z) : Qc :=
  Qsum (map Ev.FundingRate
            (filter (fun e => (Ev.Base e =? asset)%string
                              && (Ev.Exchange e =? venue)%string
                              && ts_le start (Some (Ev.Date e))
                              && (Ev.Date e <=? day))
                    df)).

(** The days on which a venue is observed for an asset, and the first and
    last of them. *)
Definition observed_on (df : frame) (asset venue : string) (d : Z) : Prop :=
  exists e, In e df /\ Ev.Base e = asset /\ Ev.Exchange e = venue
            /\ Ev.Date e = d.

Definition is_min_day (df : frame) (asset venue : string) (lo : Z) : Prop :=
  observed_on df asset venue lo
  /\ forall d, observed_on df asset venue d -> lo <= d.

Definition is_max_day (df : frame) (asset venue : string) (hi : Z) : Prop :=
  observed_on df asset venue hi
  /\ forall d, observed_on df asset venue d -> d <= hi.

(** Venue [A] observed from day 5 to day 20, venue [B] from day 10 to day
    30. *)
Definition staggered : frame :=
  [ Ev.mk "ETH" "A" 5 (rate 1); Ev.mk "ETH" "B" 10 (rate 2);
    Ev.mk "ETH" "A" 12 (rate 3); Ev.mk "ETH" "B" 12 (rate (-1));
    Ev.mk "ETH" "A" 20 (rate 4); Ev.mk "ETH" "B" 20 (rate 5);
    Ev.mk "ETH" "B" 30 (rate 6) ].

(** The tables that the scenario is expected to produce. *)
Definition scenario_cumulative : list Cum.t :=
  [ Cum.mk "BTC" "X" 1 (rate 1) (rate 1);
    Cum.mk "BTC" "X" 2 (rate 2) (rate 3);
    Cum.mk "BTC" "Y" 1 (rate (-1)) (rate (-1));
    Cum.mk "BTC" "Y" 2 (rate 1) (rate 0) ].

Definition scenario_day1 : Pair.t :=
  Pair.mk "BTC" 1 "X" (rate 1) (rate 1) "Y" (rate (-1)) (rate (-1))
          (rate (-2)) (rate 2).

Definition scenario_day2 : Pair.t :=
  Pair.mk "BTC" 2 "X" (rate 2) (rate 3) "Y" (rate 1) (rate 0)
          (rate (-3)) (rate 3).

(** The columns that identify a row of the pair table. *)
Definition merged_key (m : Merged.t) : string * Z * string * string :=
  (Merged.Base m, Merged.Date m, Merged.Exchange_a m, Merged.Exchange_b m).

Definition pair_key (p : Pair.t) : string * Z * string * string :=
  (Pair.Base p, Pair.Date p, Pair.Exchange_a p, Pair.Exchange_b p).

(** The rows of the result that come from one row of the left table. *)
Definition rows_from (asset exchange_a exchange_b : string)
                     (right : list Cum.t) (l : Cum.t) : list Pair.t :=
  filter (requested asset exchange_a exchange_b)
         (map with_advantages
              (filter (fun m => String.ltb (Merged.Exchange_a m)
                                           (Merged.Exchange_b m))
                      (map (join_rows l) (filter (join_match l) right)))).

(** The test that a pair of rows passes to reach the result. *)
Definition kept (asset exchange_a exchange_b : string) (l r : Cum.t) : bool :=
  join_match l r
  && String.ltb (Cum.Exchange l) (Cum.Exchange r)
  && requested asset exchange_a exchange_b (with_advantages (join_rows l r)).

(** ** The join over all the venues of the asset

    The variant that the design notes compare [process_data] with: the
    events of the window are not restricted to the two requested venues, the
    daily totals, running totals and the self-join are computed over every
    venue of the asset, and only the final selection keeps the requested
    pair. *)
Definition subset_all_venues (df : frame)
                             (asset exchange_a exchange_b : string) : frame :=
  let w := window df asset exchange_a exchange_b in
  filter (fun e => in_window w (Ev.Date e) && (Ev.Base e =? asset)%string) df.

Definition process_data_all_venues (df : frame)
                                   (asset exchange_a exchange_b : string)
  : list Pair.t :=
  let daily_sum :=
    cumulative (subset_all_venues df asset exchange_a exchange_b) in
  filter (requested asset exchange_a exchange_b) (pair_df_2025 daily_sum).

(** Three venues for one asset; the third is never requested. *)
Definition three_venues : frame :=
  [ Ev.mk "BTC" "X" 1 (rate 1); Ev.mk "BTC" "W" 1 (rate 7);
    Ev.mk "BTC" "Y" 1 (rate (-1)); Ev.mk "BTC" "Z" 1 (rate 9);
    Ev.mk "BTC" "X" 2 (rate 2); Ev.mk "BTC" "Y" 2 (rate 1);
    Ev.mk "BTC" "Z" 2 (rate 3); Ev.mk "ETH" "X" 2 (rate 5) ].

(** ** [load_data]

    A row of the CSV file carries its timestamp in milliseconds since the
    epoch.  [load_data] rounds it to the five-minute grid and derives the
    day. *)
Module Raw.
Record t := mk
  { Timestamp : Z; Base : string; Exchange : string; FundingRate : Qc }.
End Raw.

(** A row of the loaded table: [Timestamp] is the rounded instant, still in
    milliseconds; [Date] is the day of that instant, counted in days since
    the epoch (pandas holds the midnight of that day). *)
Module Row.
Record t := mk
  { Timestamp : Z; Base : string; Exchange : string; FundingRate : Qc;
    Date : Z }.
End Row.

Definition ms_5min : Z := 300000.

Definition ms_day : Z := 86400000.

(** [dt.round("5min")]: to the nearest multiple of five minutes, a tie going
    to the even multiple. *)
Definition round_5min (ms : Z) : Z :=
  let quotient := ms / ms_5min in
  let remainder := ms mod ms_5min in
  if (ms_5min / 2 <? remainder)
     || ((remainder =? ms_5min / 2) && Z.odd quotient)
  then (quotient + 1) * ms_5min
  else quotient * ms_5min.

(** [dt.floor("D")], as a day number. *)
Definition floor_day (ts : Z) : Z := ts / ms_day.

Definition load_row (r : Raw.t) : Row.t :=
  let ts := round_5min (Raw.Timestamp r) in
  Row.mk ts (Raw.Base r) (Raw.Exchange r) (Raw.FundingRate r) (floor_day ts).

Definition load_data (csv : list Raw.t) : list Row.t := map load_row csv.

(** ** The selections of the page *)

(** The columns of a loaded row that [process_data] reads. *)
Definition event_of_row (r : Row.t) : Ev.t :=
  Ev.mk (Row.Base r) (Row.Exchange r) (Row.Date r) (Row.FundingRate r).

(** [df[df["Timestamp"] >= pd.Timestamp(selected_start_date)]], the start
    date in milliseconds. *)
Definition df_tmp (df : list Row.t) (selected_start_date : Z) : list Row.t :=
  filter (fun r => selected_start_date <=? Row.Timestamp r) df.

(** [Series.unique()]: the values in order of first appearance. *)
Fixpoint unique_from (seen col : list string) : list string :=
  match col with
  | [] => []
  | x :: rest =>
      if existsb (String.eqb x) seen then unique_from seen rest
      else x :: unique_from (x :: seen) rest
  end.

Definition unique (col : list string) : list string := unique_from [] col.

(** [sorted] on strings and on pairs of strings, through the order of keys
    with the remaining columns constant. *)
Definition string_sort_key (s : string) : key := (s, EmptyString, 0).

Definition sorted_strings (l : list string) : list string :=
  sort_rows string_sort_key l.

Definition pair_sort_key (p : string * string) : key := (fst p, snd p, 0).

Definition sorted_pairs (l : list (string * string))
  : list (string * string) :=
  sort_rows pair_sort_key l.

(** [itertools.combinations(l, 2)]. *)
Fixpoint combinations2 (l : list string) : list (string * string) :=
  match l with
  | [] => []
  | x :: rest => map (pair x) rest ++ combinations2 rest
  end.

Definition sorted_bases (rows : list Row.t) : list string :=
  sorted_strings (unique (map Row.Base rows)).

Definition default_asset : string := "BTC".

(** The asset preselected in the first selector: the [base] query parameter,
    [BTC] without one, the first asset when that is not an asset of the
    table; [None] is the [IndexError] of [sorted_bases[0]] on an empty
    list. *)
Definition base_default (query_base : option string) (bases : list string)
  : option string :=
  let requested_base :=
    match query_base with
    | Some b => b
    | None => default_asset
    end in
  if existsb (String.eqb requested_base) bases then Some requested_base
  else nth_error bases 0.

Definition exchanges (rows : list Row.t) (asset : string) : list string :=
  let filtered_base := filter (fun r => (Row.Base r =? asset)%string) rows in
  unique (map Row.Exchange filtered_base).

Definition exchange_pairs (rows : list Row.t) (asset : string)
  : list (string * string) :=
  sorted_pairs (combinations2 (exchanges rows asset)).

Definition pair_eqb (p q : string * string) : bool :=
  (fst p =? fst q)%string && (snd p =? snd q)%string.

(** [list.index]: the first position of the value, [None] for the
    [ValueError] when it is absent. *)
Fixpoint index_of (p : string * string) (l : list (string * string))
  : option nat :=
  match l with
  | [] => None
  | q :: rest =>
      if pair_eqb q p then Some 0%nat
      else option_map S (index_of p rest)
  end.

(** [tuple(sorted((a, b)))]. *)
Definition sorted_pair (a b : string) : string * string :=
  if String.ltb b a then (b, a) else (a, b).

(** The pair named by the query parameters, when both are given and not
    empty; without it the name [exchange_pair] is unbound. *)
Definition query_pair (exchange_a_query exchange_b_query : option string)
  : option (string * string) :=
  match exchange_a_query, exchange_b_query with
  | Some a, Some b =>
      if negb (a =? "")%string && negb (b =? "")%string
      then Some (sorted_pair a b)
      else None
  | _, _ => None
  end.

(** The index preselected in the pair selector: any exception of the lookup
    (unbound name, absent pair) gives 0. *)
Definition exchange_pair_index
  (exchange_a_query exchange_b_query : option string)
  (pairs : list (string * string)) : nat :=
  match query_pair exchange_a_query exchange_b_query with
  | Some exchange_pair =>
      match index_of exchange_pair pairs with
      | Some i => i
      | None => 0%nat
      end
  | None => 0%nat
  end.

(** The table handed to the chart for a selected pair. *)
Definition df_to_display (rows : list Row.t) (asset : string)
                         (exchange_pair : string * string) : list Pair.t :=
  let '(exchange_a, exchange_b) := exchange_pair in
  process_data (map event_of_row rows) asset exchange_a exchange_b.

(** The direct sum of the raw rates of one (asset, venue) series on one
    day. *)
Definition day_total (df : frame) (asset venue : string) (day : Z) : Qc :=
  Qsum (map Ev.FundingRate
            (filter (fun e => key_eqb (ev_key e) (asset, venue, day)) df)).

(** The venues of an asset in a loaded table. *)
Definition has_venue (rows : list Row.t) (asset venue : string) : Prop :=
  exists r, In r rows /\ Row.Base r = asset /\ Row.Exchange r = venue.

(** A loaded table in which venue [Y] appears before venue [X]. *)
Definition y_before_x : list Row.t :=
  [ Row.mk 0 "BTC" "Y" (rate 1) 0; Row.mk 0 "BTC" "X" (rate 2) 0;
    Row.mk 86400000 "BTC" "Y" (rate 3) 1;
    Row.mk 86400000 "BTC" "X" (rate 4) 1 ].

(** Midnight of 1 January 2025, the default start date, in milliseconds. *)
Definition start_2025 : Z := 1735689600000.

(** Two readings of one venue around that midnight: 100 seconds before it
    and 200 seconds before it. *)
Definition around_midnight : list Raw.t :=
  [ Raw.mk (start_2025 - 100000) "BTC" "X" (rate 1);
    Raw.mk (start_2025 - 200000) "BTC" "X" (rate 2) ].

(** ** The same stages on binary64 rates

    [FundingRate] is a float64 column in the source.  The tables above carry
    exact rationals, which decides every property that does not depend on
    rounding.  This module carries binary64 rates through the same stages,
    for the properties that do: sums are accumulated from [0.0] in row order,
    with the rounding of each addition, and skip NaN entries as [sum] and
    [cumsum] do by default. *)
Module Float64.

Module Ev.
Record t := mk
  { Base : string; Exchange : string; Date : Z; FundingRate : float }.
End Ev.

Module Daily.
Record t := mk
  { Base : string; Exchange : string; Date : Z; DailyFunding : float }.
End Daily.

Module Cum.
Record t := mk
  { Base : string; Exchange : string; Date : Z;
    DailyFunding : float; CumulativeFunding : float }.
End Cum.

Module Merged.
Record t := mk
  { Base : string; Date : Z;
    Exchange_a : string; DailyFunding_a : float; CumulativeFunding_a : float;
    Exchange_b : string; DailyFunding_b : float; CumulativeFunding_b : float }.
End Merged.

Module Pair.
Record t := mk
  { Base : string; Date : Z;
    Exchange_a : string; DailyFunding_a : float; CumulativeFunding_a : float;
    Exchange_b : string; DailyFunding_b : float; CumulativeFunding_b : float;
    along_bshort : float; blong_ashort : float }.
End Pair.

Definition frame := list Ev.t.

Definition get_min_max_date (df : frame) (asset exchange : string)
  : timestamp * timestamp :=
  let filtered :=
    filter (fun e => (Ev.Base e =? asset)%string
                     && (Ev.Exchange e =? exchange)%string) df in
  let min_date := series_min (map Ev.Date filtered) in
  let max_date := series_max (map Ev.Date filtered) in
  (min_date, max_date).

Definition ev_key (e : Ev.t) : key := (Ev.Base e, Ev.Exchange e, Ev.Date e).

(** One step of a sum that skips missing values: a NaN entry leaves the
    accumulator as it is. *)
Definition skipna_add (s v : float) : float :=
  if PrimFloat.is_nan v then s else PrimFloat.add s v.

(** One accumulator per group, starting from [0.0]. *)
Fixpoint add_to_group (k : key) (v : float) (groups : list (key * float))
  : list (key * float) :=
  match groups with
  | [] => [(k, skipna_add 0%float v)]
  | (k', s) :: rest =>
      if key_eqb k k' then (k', skipna_add s v) :: rest
      else (k', s) :: add_to_group k v rest
  end.

Definition group_sums (rows : frame) : list (key * float) :=
  fold_left (fun groups e => add_to_group (ev_key e) (Ev.FundingRate e) groups)
            rows [].

Definition daily_of_group (g : key * float) : Daily.t :=
  let '((b, e, d), s) := g in Daily.mk b e d s.

Definition groupby_sum (rows : frame) : list Daily.t :=
  map daily_of_group (sort_rows fst (group_sums rows)).

Definition daily_key (r : Daily.t) : key :=
  (Daily.Base r, Daily.Exchange r, Daily.Date r).

Definition sort_values (rows : list Daily.t) : list Daily.t :=
  sort_rows daily_key rows.

Definition daily_group (r : Daily.t) : group :=
  (Daily.Base r, Daily.Exchange r).

(** One running total per group; a NaN entry gives a NaN row and leaves the
    running total as it is. *)
Fixpoint groupby_cumsum (acc : group -> float) (rows : list Daily.t)
  : list Cum.t :=
  match rows with
  | [] => []
  | r :: rest =>
      let g := daily_group r in
      if PrimFloat.is_nan (Daily.DailyFunding r)
      then Cum.mk (Daily.Base r) (Daily.Exchange r) (Daily.Date r)
                  (Daily.DailyFunding r) PrimFloat.nan
           :: groupby_cumsum acc rest
      else
        let c := PrimFloat.add (acc g) (Daily.DailyFunding r) in
        Cum.mk (Daily.Base r) (Daily.Exchange r) (Daily.Date r)
               (Daily.DailyFunding r) c
        :: groupby_cumsum (fun g' => if group_eqb g' g then c else acc g')
                          rest
  end.

Definition no_total : group -> float := fun _ => 0%float.

Definition join_rows (l r : Cum.t) : Merged.t :=
  Merged.mk (Cum.Base l) (Cum.Date l)
            (Cum.Exchange l) (Cum.DailyFunding l) (Cum.CumulativeFunding l)
            (Cum.Exchange r) (Cum.DailyFunding r) (Cum.CumulativeFunding r).

Definition join_match (l r : Cum.t) : bool :=
  (Cum.Base l =? Cum.Base r)%string && (Cum.Date l =? Cum.Date r).

Definition merge (left right : list Cum.t) : list Merged.t :=
  flat_map (fun l => map (join_rows l) (filter (join_match l) right)) left.

Definition with_advantages (m : Merged.t) : Pair.t :=
  Pair.mk (Merged.Base m) (Merged.Date m)
          (Merged.Exchange_a m) (Merged.DailyFunding_a m)
          (Merged.CumulativeFunding_a m)
          (Merged.Exchange_b m) (Merged.DailyFunding_b m)
          (Merged.CumulativeFunding_b m)
          (PrimFloat.sub (Merged.CumulativeFunding_b m)
                         (Merged.CumulativeFunding_a m))
          (PrimFloat.sub (Merged.CumulativeFunding_a m)
                         (Merged.CumulativeFunding_b m)).

Definition window (df : frame) (asset exchange_a exchange_b : string)
  : timestamp * timestamp :=
  let '(min_exchange_a, max_exchange_a) :=
    get_min_max_date df asset exchange_a in
  let '(min_exchange_b, max_exchange_b) :=
    get_min_max_date df asset exchange_b in
  let min_date := py_max min_exchange_a min_exchange_b in
  let max_date := py_min max_exchange_a max_exchange_b in
  (min_date, max_date).

Definition subset (df : frame) (asset exchange_a exchange_b : string)
  : frame :=
  let w := window df asset exchange_a exchange_b in
  filter (fun e =>
            in_window w (Ev.Date e)
            && (Ev.Base e =? asset)%string
            && ((Ev.Exchange e =? exchange_a)%string
                || (Ev.Exchange e =? exchange_b)%string))
         df.

Definition cumulative (sub : frame) : list Cum.t :=
  let daily_sum := groupby_sum sub in
  let daily_sum := sort_values daily_sum in
  groupby_cumsum no_total daily_sum.

Definition pair_df_2025 (daily_sum : list Cum.t) : list Pair.t :=
  let merged := merge daily_sum daily_sum in
  map with_advantages
      (filter (fun m => String.ltb (Merged.Exchange_a m) (Merged.Exchange_b m))
              merged).

Definition requested (asset exchange_a exchange_b : string) (p : Pair.t)
  : bool :=
  (Pair.Base p =? asset)%string
  && (Pair.Exchange_a p =? exchange_a)%string
  && (Pair.Exchange_b p =? exchange_b)%string.

Definition process_data (df : frame) (asset exchange_a exchange_b : string)
  : list Pair.t :=
  let daily_sum := cumulative (subset df asset exchange_a exchange_b) in
  filter (requested asset exchange_a exchange_b) (pair_df_2025 daily_sum).

(** *** Vocabulary *)

Definition cum_key (c : Cum.t) : key := (Cum.Base c, Cum.Exchange c, Cum.Date c).

(** A float64 sum accumulated from [0.0] in list order, NaN entries
    skipped. *)
Definition fsum (l : list float) : float := fold_left skipna_add l 0%float.


(** The sum, in row order, of the raw rates of one (asset, venue) series on
    one day. *)
Definition day_total (df : frame) (asset venue : string) (day : Z) : float :=
  fsum (map Ev.FundingRate
            (filter (fun e => key_eqb (ev_key e) (asset, venue, day)) df)).

(** The direct sum, in row order, of the raw rates of one (asset, venue)
    series over the days from [start] to [day]. *)
Definition raw_total (df : frame) (asset venue : string)
                     (start : timestamp) (day : Z) : float :=
  fsum (map Ev.FundingRate
            (filter (fun e => (Ev.Base e =? asset)%string
                              && (Ev.Exchange e =? venue)%string
                              && ts_le start (Some (Ev.Date e))
                              && (Ev.Date e <=? day))
                    df)).



(** The scenario of the specification, the decimal rates read as float64. *)
Definition scenario : frame :=
  [ Ev.mk "BTC" "X" 1 0.0001%float; Ev.mk "BTC" "X" 2 0.0002%float;
    Ev.mk "BTC" "Y" 1 (-0.0001)%float; Ev.mk "BTC" "Y" 2 0.0001%float ].


(** The rows expected of the two tables for day 2. *)
Definition scenario_day2 : Pair.t :=
  Pair.mk "BTC" 2 "X" 0.0002%float 0.00030000000000000003%float
          "Y" 0.0001%float 0%float
          (-0.00030000000000000003)%float 0.00030000000000000003%float.


End Float64.

(** * Properties *)

(** ** The order on venue identifiers and on keys *)

Lemma string_compare_refl (s : string) : String.compare s s = Eq.
Proof.
  induction s as [|c s IH]; simpl; [reflexivity|].
  unfold Ascii.compare. now rewrite N.compare_refl.
Qed.

Lemma string_compare_eq (s1 s2 : string) :
  String.compare s1 s2 = Eq <-> s1 = s2.
Proof.
  split; [apply String.compare_eq_iff|].
  intros ->. apply string_compare_refl.
Qed.

Lemma string_compare_lt_trans (s1 s2 s3 : string) :
  String.compare s1 s2 = Lt -> String.compare s2 s3 = Lt ->
  String.compare s1 s3 = Lt.
Proof.
  revert s2 s3.
  induction s1 as [|c1 s1 IH]; intros [|c2 s2] [|c3 s3]; simpl;
    try discriminate; try reflexivity.
  destruct (Ascii.compare c1 c2) eqn:E12; try discriminate;
    destruct (Ascii.compare c2 c3) eqn:E23; try discriminate; intros H12 H23.
  - apply Ascii.compare_eq_iff in E12, E23. subst.
    unfold Ascii.compare. rewrite N.compare_refl. eauto.
  - apply Ascii.compare_eq_iff in E12. subst. now rewrite E23.
  - apply Ascii.compare_eq_iff in E23. subst. now rewrite E12.
  - unfold Ascii.compare in *. rewrite N.compare_lt_iff in *.
    assert (H : (N_of_ascii c1 < N_of_ascii c3)%N) by lia.
    apply N.compare_lt_iff in H. now rewrite H.
Qed.

Lemma string_compare_gt_lt (s1 s2 : string) :
  String.compare s1 s2 = Gt <-> String.compare s2 s1 = Lt.
Proof.
  rewrite (String.compare_antisym s1 s2).
  destruct (String.compare s2 s1); simpl; split; congruence.
Qed.

Lemma string_ltb_irrefl (s : string) : String.ltb s s = false.
Proof. unfold String.ltb. now rewrite string_compare_refl. Qed.

Lemma string_ltb_asym (s1 s2 : string) :
  String.ltb s1 s2 = true -> String.ltb s2 s1 = false.
Proof.
  unfold String.ltb. rewrite (String.compare_antisym s2 s1).
  destruct (String.compare s1 s2); simpl; congruence.
Qed.

Lemma key_eqb_eq (k1 k2 : key) : key_eqb k1 k2 = true <-> k1 = k2.
Proof.
  destruct k1 as [[b1 e1] d1], k2 as [[b2 e2] d2]. unfold key_eqb.
  rewrite !andb_true_iff, !String.eqb_eq, Z.eqb_eq.
  split; [intros [[-> ->] ->]; reflexivity | intros [= -> -> ->]; auto].
Qed.

Lemma key_eqb_refl (k : key) : key_eqb k k = true.
Proof. now apply key_eqb_eq. Qed.

Lemma key_eqb_neq (k1 k2 : key) : key_eqb k1 k2 = false <-> k1 <> k2.
Proof.
  rewrite <- key_eqb_eq. destruct (key_eqb k1 k2); split; congruence.
Qed.

Lemma key_leb_refl (k : key) : key_leb k k = true.
Proof.
  destruct k as [[b e] d]. unfold key_leb.
  rewrite !string_compare_refl. apply Z.leb_refl.
Qed.

Lemma key_leb_total (k1 k2 : key) :
  key_leb k1 k2 = true \/ key_leb k2 k1 = true.
Proof.
  destruct k1 as [[b1 e1] d1], k2 as [[b2 e2] d2]. unfold key_leb.
  rewrite (String.compare_antisym b2 b1), (String.compare_antisym e2 e1).
  destruct (String.compare b1 b2); simpl; auto.
  destruct (String.compare e1 e2); simpl; auto.
  rewrite !Z.leb_le. lia.
Qed.

Lemma key_leb_antisym (k1 k2 : key) :
  key_leb k1 k2 = true -> key_leb k2 k1 = true -> k1 = k2.
Proof.
  destruct k1 as [[b1 e1] d1], k2 as [[b2 e2] d2]. unfold key_leb.
  rewrite (String.compare_antisym b2 b1), (String.compare_antisym e2 e1).
  destruct (String.compare b1 b2) eqn:Eb; simpl; try discriminate.
  destruct (String.compare e1 e2) eqn:Ee; simpl; try discriminate.
  apply string_compare_eq in Eb, Ee. rewrite !Z.leb_le. intros.
  subst. f_equal. lia.
Qed.

(** Resolves the comparisons of identifiers in the context: equal ones are
    identified, chains of [Lt] are composed. *)
Ltac string_order :=
  repeat match goal with
    | H : String.compare ?a ?b = Eq |- _ =>
        apply string_compare_eq in H; subst
    | H : String.compare ?a ?b = Gt |- _ =>
        apply string_compare_gt_lt in H
    | H : context [String.compare ?a ?a] |- _ =>
        rewrite string_compare_refl in H
    | |- context [String.compare ?a ?a] =>
        rewrite string_compare_refl
    | H : String.compare ?a ?b = Lt |- context [String.compare ?a ?b] =>
        rewrite H
    | H1 : String.compare ?a ?b = Lt, H2 : String.compare ?b ?c = Lt
      |- context [String.compare ?a ?c] =>
        rewrite (string_compare_lt_trans a b c H1 H2)
    end.

Lemma key_leb_trans (k1 k2 k3 : key) :
  key_leb k1 k2 = true -> key_leb k2 k3 = true -> key_leb k1 k3 = true.
Proof.
  destruct k1 as [[b1 e1] d1], k2 as [[b2 e2] d2], k3 as [[b3 e3] d3].
  unfold key_leb.
  destruct (String.compare b1 b2) eqn:B12; try discriminate;
    destruct (String.compare b2 b3) eqn:B23; try discriminate;
    string_order; try reflexivity.
  destruct (String.compare e1 e2) eqn:E12; try discriminate;
    destruct (String.compare e2 e3) eqn:E23; try discriminate;
    string_order; try reflexivity.
  rewrite !Z.leb_le. lia.
Qed.

(** Within one (asset, venue) series the key order is the order of days. *)
Lemma key_leb_same_group (b e : string) (d1 d2 : Z) :
  key_leb (b, e, d1) (b, e, d2) = (d1 <=? d2).
Proof. unfold key_leb. now rewrite !string_compare_refl. Qed.

(** ** The stable sort *)

Section SortFacts.
Context {A : Type} (kf : A -> key).

Lemma insert_row_perm (x : A) (l : list A) :
  Permutation (x :: l) (insert_row kf x l).
Proof.
  induction l as [|y l IH]; simpl; [reflexivity|].
  destruct (key_leb (kf x) (kf y)); [reflexivity|].
  rewrite perm_swap. now apply perm_skip.
Qed.

Lemma sort_rows_perm (l : list A) : Permutation l (sort_rows kf l).
Proof.
  induction l as [|x l IH]; simpl; [reflexivity|].
  rewrite <- insert_row_perm. now apply perm_skip.
Qed.

Lemma sort_rows_In (x : A) (l : list A) :
  In x (sort_rows kf l) <-> In x l.
Proof.
  split; apply Permutation_in;
    [symmetry|]; apply sort_rows_perm.
Qed.

Lemma insert_row_sorted (x : A) (l : list A) :
  sorted_by kf l -> sorted_by kf (insert_row kf x l).
Proof.
  unfold sorted_by.
  induction 1 as [|y l Hs IH Hy]; simpl.
  - repeat constructor.
  - destruct (key_leb (kf x) (kf y)) eqn:E.
    + constructor; [now constructor|].
      constructor; [exact E|].
      eapply Forall_impl; [|exact Hy].
      intros z Hz. eapply key_leb_trans; eassumption.
    + constructor; [exact IH|].
      eapply Permutation_Forall; [apply insert_row_perm|].
      constructor; [|exact Hy].
      destruct (key_leb_total (kf x) (kf y)); congruence.
Qed.

Lemma sort_rows_sorted (l : list A) : sorted_by kf (sort_rows kf l).
Proof.
  induction l as [|x l IH]; simpl;
    [constructor | now apply insert_row_sorted].
Qed.

Lemma insert_row_head (x : A) (l : list A) :
  Forall (fun y => key_leb (kf x) (kf y) = true) l ->
  insert_row kf x l = x :: l.
Proof.
  destruct 1 as [|y l Hy _]; simpl; [reflexivity|]. now rewrite Hy.
Qed.

(** Sorting a sorted table changes nothing. *)
Lemma sort_rows_id (l : list A) : sorted_by kf l -> sort_rows kf l = l.
Proof.
  induction 1 as [|x l Hs IH Hx]; simpl; [reflexivity|].
  rewrite IH. now apply insert_row_head.
Qed.

Lemma insert_row_filter (P : A -> bool) (x : A) (l : list A) :
  sorted_by kf l ->
  filter P (insert_row kf x l)
  = if P x then insert_row kf x (filter P l) else filter P l.
Proof.
  induction 1 as [|y l Hs IH Hy]; simpl.
  - now destruct (P x).
  - destruct (key_leb (kf x) (kf y)) eqn:E; simpl.
    + destruct (P x) eqn:Px; [|reflexivity].
      symmetry. apply insert_row_head.
      assert (Hall : Forall (fun z => key_leb (kf x) (kf z) = true)
                            (y :: l)).
      { constructor; [exact E|].
        eapply Forall_impl; [|exact Hy].
        intros z Hz. eapply key_leb_trans; eassumption. }
      rewrite Forall_forall in *. intros z Hz.
      apply Hall. change (In z (filter P (y :: l))) in Hz.
      now apply filter_In in Hz.
    + rewrite IH. destruct (P y), (P x); simpl; try reflexivity.
      now rewrite E.
Qed.

(** Selecting rows and sorting commute. *)
Lemma sort_rows_filter (P : A -> bool) (l : list A) :
  filter P (sort_rows kf l) = sort_rows kf (filter P l).
Proof.
  induction l as [|x l IH]; simpl; [reflexivity|].
  rewrite insert_row_filter by apply sort_rows_sorted.
  rewrite IH. now destruct (P x).
Qed.
End SortFacts.

(** ** Sums of rates *)

Lemma Qsum_app (l1 l2 : list Qc) : Qsum (l1 ++ l2) = (Qsum l1 + Qsum l2)%Qc.
Proof.
  induction l1 as [|x l1 IH]; simpl; [now rewrite Qcplus_0_l|].
  rewrite IH. ring.
Qed.

Lemma Qsum_perm (l1 l2 : list Qc) : Permutation l1 l2 -> Qsum l1 = Qsum l2.
Proof.
  induction 1 as [|x l1 l2 _ IH|x y l|l1 l2 l3 _ IH12 _ IH23]; simpl.
  - reflexivity.
  - now rewrite IH.
  - ring.
  - congruence.
Qed.

(** ** The grouped sum: one accumulator per key *)

Section GroupSums.
Variable P : key -> bool.

Local Abbreviation Pg := (fun g : key * Qc => P (fst g)).
Local Abbreviation Pe := (fun e : Ev.t => P (ev_key e)).
Local Abbreviation step :=
  (fun (groups : list (key * Qc)) (e : Ev.t) =>
     add_to_group (ev_key e) (Ev.FundingRate e) groups).

Lemma add_to_group_filter (k : key) (v : Qc) (groups : list (key * Qc)) :
  filter Pg (add_to_group k v groups)
  = if P k then add_to_group k v (filter Pg groups) else filter Pg groups.
Proof.
  induction groups as [|[k' s] groups IH]; simpl.
  - now destruct (P k).
  - destruct (key_eqb k k') eqn:E; simpl.
    + apply key_eqb_eq in E. subst k'.
      destruct (P k); simpl; [|reflexivity].
      now rewrite key_eqb_refl.
    + rewrite IH.
      destruct (P k'), (P k); simpl; try reflexivity.
      now rewrite E.
Qed.

Lemma add_to_group_sum (k : key) (v : Qc) (groups : list (key * Qc)) :
  Qsum (map snd (filter Pg (add_to_group k v groups)))
  = (Qsum (map snd (filter Pg groups)) + (if P k then v else 0))%Qc.
Proof.
  induction groups as [|[k' s] groups IH]; simpl.
  - destruct (P k); simpl; ring.
  - destruct (key_eqb k k') eqn:E; simpl.
    + apply key_eqb_eq in E. subst k'.
      destruct (P k); simpl; ring.
    + destruct (P k'); simpl; rewrite IH; ring.
Qed.

Lemma fold_groups_filter (rows : frame) (groups : list (key * Qc)) :
  filter Pg (fold_left step rows groups)
  = fold_left step (filter Pe rows) (filter Pg groups).
Proof.
  revert groups.
  induction rows as [|e rows IH]; intros groups; simpl; [reflexivity|].
  rewrite IH, add_to_group_filter.
  now destruct (P (ev_key e)).
Qed.

Lemma fold_groups_sum (rows : frame) (groups : list (key * Qc)) :
  Qsum (map snd (filter Pg (fold_left step rows groups)))
  = (Qsum (map snd (filter Pg groups))
     + Qsum (map Ev.FundingRate (filter Pe rows)))%Qc.
Proof.
  revert groups.
  induction rows as [|e rows IH]; intros groups; simpl; [ring|].
  rewrite IH, add_to_group_sum.
  destruct (P (ev_key e)); simpl; ring.
Qed.

(** Selecting events by key before the grouped sum, or groups after it. *)
Lemma group_sums_filter (rows : frame) :
  filter Pg (group_sums rows) = group_sums (filter Pe rows).
Proof. apply (fold_groups_filter rows []). Qed.

(** The accumulators of the selected keys add up to the rates of the
    selected events. *)
Lemma group_sums_sum (rows : frame) :
  Qsum (map snd (filter Pg (group_sums rows)))
  = Qsum (map Ev.FundingRate (filter Pe rows)).
Proof.
  unfold group_sums. rewrite fold_groups_sum. simpl. ring.
Qed.
End GroupSums.

Lemma add_to_group_keys (k : key) (v : Qc) (groups : list (key * Qc)) :
  map fst (add_to_group k v groups)
  = if existsb (key_eqb k) (map fst groups) then map fst groups
    else map fst groups ++ [k].
Proof.
  induction groups as [|[k' s] groups IH]; simpl; [reflexivity|].
  destruct (key_eqb k k') eqn:E; simpl; [reflexivity|].
  rewrite IH. now destruct (existsb (key_eqb k) (map fst groups)).
Qed.

Lemma existsb_key_In (k : key) (ks : list key) :
  existsb (key_eqb k) ks = true <-> In k ks.
Proof.
  rewrite existsb_exists. split.
  - intros (k' & Hin & E). apply key_eqb_eq in E. now subst.
  - intros Hin. exists k. split; [exact Hin | apply key_eqb_refl].
Qed.

Lemma add_to_group_In (k k0 : key) (v : Qc) (groups : list (key * Qc)) :
  In k0 (map fst (add_to_group k v groups))
  <-> k0 = k \/ In k0 (map fst groups).
Proof.
  rewrite add_to_group_keys.
  destruct (existsb (key_eqb k) (map fst groups)) eqn:E.
  - apply existsb_key_In in E. split; [auto|]. intros [->|H]; assumption.
  - rewrite in_app_iff. simpl. intuition congruence.
Qed.

Lemma add_to_group_NoDup (k : key) (v : Qc) (groups : list (key * Qc)) :
  NoDup (map fst groups) -> NoDup (map fst (add_to_group k v groups)).
Proof.
  intros Hnd. rewrite add_to_group_keys.
  destruct (existsb (key_eqb k) (map fst groups)) eqn:E; [exact Hnd|].
  apply NoDup_app; [exact Hnd | repeat constructor; simpl; tauto |].
  intros x Hx [<-|[]]. apply existsb_key_In in Hx. congruence.
Qed.

Lemma fold_groups_In (k : key) (rows : frame) (groups : list (key * Qc)) :
  In k (map fst
          (fold_left (fun g e => add_to_group (ev_key e) (Ev.FundingRate e) g)
                     rows groups))
  <-> In k (map fst groups) \/ In k (map ev_key rows).
Proof.
  revert groups.
  induction rows as [|e rows IH]; intros groups; simpl; [tauto|].
  rewrite IH, add_to_group_In. intuition congruence.
Qed.

Lemma fold_groups_NoDup (rows : frame) (groups : list (key * Qc)) :
  NoDup (map fst groups) ->
  NoDup (map fst
           (fold_left (fun g e => add_to_group (ev_key e) (Ev.FundingRate e) g)
                      rows groups)).
Proof.
  revert groups.
  induction rows as [|e rows IH]; intros groups Hnd; simpl; [exact Hnd|].
  now apply IH, add_to_group_NoDup.
Qed.

(** A key has a group exactly when some event carries it. *)
Lemma group_sums_In (k : key) (rows : frame) :
  In k (map fst (group_sums rows)) <-> In k (map ev_key rows).
Proof. unfold group_sums. rewrite fold_groups_In. simpl. tauto. Qed.

Lemma group_sums_NoDup (rows : frame) : NoDup (map fst (group_sums rows)).
Proof. apply fold_groups_NoDup. constructor. Qed.

(** ** The daily table *)

Lemma daily_key_of_group (g : key * Qc) : daily_key (daily_of_group g) = fst g.
Proof. now destruct g as [[[b e] d] s]. Qed.

Lemma daily_funding_of_group (g : key * Qc) :
  Daily.DailyFunding (daily_of_group g) = snd g.
Proof. now destruct g as [[[b e] d] s]. Qed.

Lemma sorted_by_map {A B : Type} (kf : B -> key) (f : A -> B) (l : list A) :
  sorted_by (fun x => kf (f x)) l -> sorted_by kf (map f l).
Proof.
  unfold sorted_by. induction 1 as [|x l Hs IH Hx]; simpl; constructor.
  - exact IH.
  - apply Forall_map. exact Hx.
Qed.

Lemma sorted_by_ext {A : Type} (kf kf' : A -> key) (l : list A) :
  (forall x, kf x = kf' x) -> sorted_by kf l -> sorted_by kf' l.
Proof.
  intros E. unfold sorted_by.
  induction 1 as [|x l Hs IH Hx]; constructor; [exact IH|].
  eapply Forall_impl; [|exact Hx]. intros y. now rewrite !E.
Qed.

Lemma groupby_sum_keys (rows : frame) :
  map daily_key (groupby_sum rows)
  = map fst (sort_rows fst (group_sums rows)).
Proof.
  unfold groupby_sum. rewrite map_map. apply map_ext, daily_key_of_group.
Qed.

Lemma groupby_sum_sorted (rows : frame) :
  sorted_by daily_key (groupby_sum rows).
Proof.
  apply sorted_by_map.
  eapply sorted_by_ext; [|apply sort_rows_sorted].
  intros g. symmetry. apply daily_key_of_group.
Qed.

(** The grouped sum already comes out in key order, so [sort_values] leaves
    it as it is. *)
Lemma sort_values_groupby_sum (rows : frame) :
  sort_values (groupby_sum rows) = groupby_sum rows.
Proof. apply sort_rows_id, groupby_sum_sorted. Qed.

Lemma groupby_sum_NoDup (rows : frame) :
  NoDup (map daily_key (groupby_sum rows)).
Proof.
  rewrite groupby_sum_keys.
  eapply Permutation_NoDup; [|apply group_sums_NoDup].
  apply Permutation_map, sort_rows_perm.
Qed.

Lemma groupby_sum_In (k : key) (rows : frame) :
  In k (map daily_key (groupby_sum rows)) <-> In k (map ev_key rows).
Proof.
  rewrite groupby_sum_keys, <- group_sums_In.
  split; apply Permutation_in; [symmetry|];
    apply Permutation_map, sort_rows_perm.
Qed.

(** Selecting events by key before the grouped sum, or rows after it. *)
Lemma groupby_sum_filter (P : key -> bool) (rows : frame) :
  filter (fun r => P (daily_key r)) (groupby_sum rows)
  = groupby_sum (filter (fun e => P (ev_key e)) rows).
Proof.
  unfold groupby_sum. rewrite filter_map_swap.
  rewrite <- group_sums_filter, <- sort_rows_filter.
  f_equal. apply filter_ext. intros g. now rewrite daily_key_of_group.
Qed.

(** The daily totals of the selected keys add up to the rates of the
    selected events. *)
Lemma groupby_sum_total (P : key -> bool) (rows : frame) :
  Qsum (map Daily.DailyFunding
            (filter (fun r => P (daily_key r)) (groupby_sum rows)))
  = Qsum (map Ev.FundingRate (filter (fun e => P (ev_key e)) rows)).
Proof.
  rewrite groupby_sum_filter.
  set (sel := filter (fun e => P (ev_key e)) rows).
  pose proof (group_sums_sum (fun _ => true) sel) as H.
  rewrite !filter_true in H. rewrite <- H.
  unfold groupby_sum. rewrite map_map.
  rewrite (map_ext _ snd daily_funding_of_group).
  apply Qsum_perm, Permutation_map. symmetry. apply sort_rows_perm.
Qed.

(** ** The grouped cumulative sum *)

Lemma group_eqb_eq (g1 g2 : group) : group_eqb g1 g2 = true <-> g1 = g2.
Proof.
  destruct g1 as [b1 e1], g2 as [b2 e2]. unfold group_eqb. simpl.
  rewrite andb_true_iff, !String.eqb_eq.
  split; [intros [-> ->]; reflexivity | intros [= -> ->]; auto].
Qed.


Lemma group_eqb_sym (g1 g2 : group) : group_eqb g1 g2 = group_eqb g2 g1.
Proof.
  unfold group_eqb.
  now rewrite (String.eqb_sym (fst g1)), (String.eqb_sym (snd g1)).
Qed.

Lemma groupby_cumsum_keys (acc : group -> Qc) (rows : list Daily.t) :
  map cum_key (groupby_cumsum acc rows) = map daily_key rows.
Proof.
  revert acc. induction rows as [|r rows IH]; intros acc; simpl;
    [reflexivity|].
  now rewrite IH.
Qed.

(** Every row of the cumulative table is a row of the daily table with the
    running total of its group: what the group had before the pass, the rows
    of the group above it, and the row itself. *)
Lemma groupby_cumsum_In (acc : group -> Qc) (rows : list Daily.t) (c : Cum.t) :
  In c (groupby_cumsum acc rows) ->
  exists pre r post,
    rows = pre ++ r :: post
    /\ c = Cum.mk (Daily.Base r) (Daily.Exchange r) (Daily.Date r)
                  (Daily.DailyFunding r)
                  (acc (daily_group r) + group_sum (daily_group r) pre
                   + Daily.DailyFunding r)%Qc.
Proof.
  revert acc. induction rows as [|r0 rows IH]; intros acc; simpl; [tauto|].
  intros [<-|Hin].
  - exists [], r0, rows. split; [reflexivity|].
    f_equal. unfold group_sum, Qsum. cbn [filter map fold_right]. ring.
  - apply IH in Hin. destruct Hin as (pre & r & post & -> & ->).
    exists (r0 :: pre), r, post. split; [reflexivity|].
    f_equal. unfold group_sum, Qsum. cbn [filter].
    rewrite (group_eqb_sym (daily_group r0)).
    destruct (group_eqb (daily_group r) (daily_group r0)) eqn:E;
      [apply group_eqb_eq in E; rewrite E|];
      cbn [map fold_right]; ring.
Qed.

(** Selecting whole groups before the pass, or rows after it. *)
Lemma groupby_cumsum_filter (V : group -> bool) (rows : list Daily.t) :
  forall acc1 acc2 : group -> Qc,
    (forall g, V g = true -> acc1 g = acc2 g) ->
    groupby_cumsum acc1 (filter (fun r => V (daily_group r)) rows)
    = filter (fun c => V (cum_group c)) (groupby_cumsum acc2 rows).
Proof.
  induction rows as [|r rows IH]; intros acc1 acc2 Hacc; simpl;
    [reflexivity|].
  unfold cum_group at 1. simpl. fold (daily_group r).
  destruct (V (daily_group r)) eqn:Vr; simpl.
  - rewrite (Hacc _ Vr). f_equal. apply IH.
    intros g Vg. destruct (group_eqb g (daily_group r)); auto.
  - apply IH. intros g Vg.
    destruct (group_eqb g (daily_group r)) eqn:E; auto.
    apply group_eqb_eq in E. congruence.
Qed.

(** ** Rows of a sorted table around a position *)

Lemma sorted_by_app_inv {A : Type} (kf : A -> key) (pre post : list A) (r : A) :
  sorted_by kf (pre ++ r :: post) ->
  (forall x, In x pre -> key_leb (kf x) (kf r) = true)
  /\ (forall y, In y post -> key_leb (kf r) (kf y) = true).
Proof.
  unfold sorted_by. induction pre as [|x0 pre IH]; simpl; intros Hs.
  - apply StronglySorted_inv in Hs. destruct Hs as [_ Hall].
    rewrite Forall_forall in Hall. split; [tauto | exact Hall].
  - apply StronglySorted_inv in Hs. destruct Hs as [Hs Hall].
    destruct (IH Hs) as [Hpre Hpost]. split; [|exact Hpost].
    intros x [<-|Hx]; [|now apply Hpre].
    rewrite Forall_forall in Hall. apply Hall, in_elt.
Qed.

Lemma filter_filter {A : Type} (f g : A -> bool) (l : list A) :
  filter f (filter g l) = filter (fun x => g x && f x) l.
Proof.
  induction l as [|x l IH]; simpl; [reflexivity|].
  destruct (g x); simpl; [|exact IH]. now rewrite IH.
Qed.

(** In a table sorted by (asset, venue, day) with one row per key, the
    running total of a group at a row is the sum of the group's daily totals
    up to the day of the row. *)
Lemma cumsum_prefix_total (daily : list Daily.t) (c : Cum.t) :
  sorted_by daily_key daily ->
  NoDup (map daily_key daily) ->
  In c (groupby_cumsum no_total daily) ->
  Cum.CumulativeFunding c
  = daily_total daily (Cum.Base c) (Cum.Exchange c) (Cum.Date c).
Proof.
  intros Hs Hnd Hin.
  apply groupby_cumsum_In in Hin. destruct Hin as (pre & r & post & -> & ->).
  apply sorted_by_app_inv in Hs. destruct Hs as [Hpre Hpost].
  rewrite map_app in Hnd. simpl in Hnd. apply NoDup_remove_2 in Hnd.
  rewrite in_app_iff, !in_map_iff in Hnd.
  unfold daily_total, group_sum, no_total. cbn [Cum.CumulativeFunding
    Cum.Base Cum.Exchange Cum.Date].
  rewrite filter_app. cbn [filter].
  rewrite !String.eqb_refl, Z.leb_refl. cbn [andb].
  rewrite map_app, Qsum_app. cbn [map].
  rewrite (filter_ext_in
             (fun r0 => (Daily.Base r0 =? Daily.Base r)%string
                        && (Daily.Exchange r0 =? Daily.Exchange r)%string
                        && (Daily.Date r0 <=? Daily.Date r))
             (fun r0 => group_eqb (daily_group r0) (daily_group r)) pre).
  2:{ intros x Hx. unfold group_eqb, daily_group. cbn [fst snd].
      destruct ((Daily.Base x =? Daily.Base r)%string
                && (Daily.Exchange x =? Daily.Exchange r)%string) eqn:E;
        [|reflexivity].
      apply andb_true_iff in E. rewrite !String.eqb_eq in E.
      destruct E as [Eb Ee]. specialize (Hpre x Hx).
      unfold daily_key in Hpre. rewrite Eb, Ee, key_leb_same_group in Hpre.
      now rewrite Hpre. }
  rewrite (filter_ext_in _ (fun _ => false) post), filter_false.
  2:{ intros y Hy.
      destruct ((Daily.Base y =? Daily.Base r)%string
                && (Daily.Exchange y =? Daily.Exchange r)%string) eqn:E;
        [|reflexivity].
      apply andb_true_iff in E. rewrite !String.eqb_eq in E.
      destruct E as [Eb Ee]. specialize (Hpost y Hy).
      unfold daily_key in Hpost. rewrite Eb, Ee, key_leb_same_group in Hpost.
      cbn [andb]. apply Z.leb_gt. apply Z.leb_le in Hpost.
      assert (Daily.Date y <> Daily.Date r); [|lia].
      intros Ed. apply Hnd. right. exists y. split; [|exact Hy].
      unfold daily_key. congruence. }
  unfold Qsum. cbn [map fold_right]. ring.
Qed.

(** ** The observation window *)

Lemma fold_min_spec (col : list Z) (d : Z) :
  (fold_left Z.min col d = d \/ In (fold_left Z.min col d) col)
  /\ fold_left Z.min col d <= d
  /\ (forall x, In x col -> fold_left Z.min col d <= x).
Proof.
  revert d. induction col as [|y col IH]; intros d; simpl.
  - split; [auto|]. split; [lia | tauto].
  - destruct (IH (Z.min d y)) as (Hin & Hle & Hall).
    split; [|split].
    + destruct Hin as [E|Hin]; [|auto]. rewrite E. lia.
    + lia.
    + intros x [<-|Hx]; [lia | auto].
Qed.

Lemma fold_max_spec (col : list Z) (d : Z) :
  (fold_left Z.max col d = d \/ In (fold_left Z.max col d) col)
  /\ d <= fold_left Z.max col d
  /\ (forall x, In x col -> x <= fold_left Z.max col d).
Proof.
  revert d. induction col as [|y col IH]; intros d; simpl.
  - split; [auto|]. split; [lia | tauto].
  - destruct (IH (Z.max d y)) as (Hin & Hle & Hall).
    split; [|split].
    + destruct Hin as [E|Hin]; [|auto]. rewrite E. lia.
    + lia.
    + intros x [<-|Hx]; [lia | auto].
Qed.

(** [Series.min()] is the least date of the column and is one of them. *)
Lemma series_min_Some (col : list Z) (lo : Z) :
  series_min col = Some lo ->
  In lo col /\ forall d, In d col -> lo <= d.
Proof.
  destruct col as [|d col]; simpl; [discriminate|]. intros [= <-].
  destruct (fold_min_spec col d) as (Hin & Hle & Hall).
  split; [destruct Hin as [E|Hin]; [left; now rewrite E | now right]|].
  intros x [<-|Hx]; auto.
Qed.

Lemma series_max_Some (col : list Z) (hi : Z) :
  series_max col = Some hi ->
  In hi col /\ forall d, In d col -> d <= hi.
Proof.
  destruct col as [|d col]; simpl; [discriminate|]. intros [= <-].
  destruct (fold_max_spec col d) as (Hin & Hle & Hall).
  split; [destruct Hin as [E|Hin]; [left; now rewrite E | now right]|].
  intros x [<-|Hx]; auto.
Qed.

Lemma series_min_None (col : list Z) : series_min col = NaT <-> col = [].
Proof.
  destruct col; unfold NaT; simpl; split; intros H;
    try reflexivity; discriminate H.
Qed.

Lemma series_max_None (col : list Z) : series_max col = NaT <-> col = [].
Proof.
  destruct col; unfold NaT; simpl; split; intros H;
    try reflexivity; discriminate H.
Qed.

Lemma in_window_bounds (w : timestamp * timestamp) (d : Z) :
  in_window w d = true <->
  exists lo hi, w = (Some lo, Some hi) /\ lo <= d <= hi.
Proof.
  destruct w as [[lo|] [hi|]]; unfold in_window; simpl.
  - rewrite andb_true_iff, !Z.leb_le.
    split; [intros H; exists lo, hi; auto|].
    intros (lo' & hi' & [= <- <-] & H). exact H.
  - rewrite andb_false_r.
    split; [discriminate | intros (? & ? & [=] & _)].
  - split; [discriminate | intros (? & ? & [=] & _)].
  - split; [discriminate | intros (? & ? & [=] & _)].
Qed.

(** The rows of [subset]: the events of the asset on one of the two venues,
    on a day of the window. *)
Lemma subset_In (df : frame) (asset exchange_a exchange_b : string) (e : Ev.t) :
  In e (subset df asset exchange_a exchange_b) <->
  In e df
  /\ in_window (window df asset exchange_a exchange_b) (Ev.Date e) = true
  /\ Ev.Base e = asset
  /\ (Ev.Exchange e = exchange_a \/ Ev.Exchange e = exchange_b).
Proof.
  unfold subset. cbv zeta. rewrite filter_In, !andb_true_iff, orb_true_iff.
  rewrite !String.eqb_eq. tauto.
Qed.

(** ** Rows of the join and of the result *)

Lemma merge_In (left right : list Cum.t) (m : Merged.t) :
  In m (merge left right) <->
  exists l r, In l left /\ In r right /\ join_match l r = true
              /\ m = join_rows l r.
Proof.
  unfold merge. rewrite in_flat_map. split.
  - intros (l & Hl & Hm). apply in_map_iff in Hm.
    destruct Hm as (r & <- & Hr). apply filter_In in Hr.
    exists l, r. tauto.
  - intros (l & r & Hl & Hr & Hm & ->). exists l. split; [exact Hl|].
    apply in_map, filter_In. tauto.
Qed.

Lemma pair_df_2025_In (daily_sum : list Cum.t) (p : Pair.t) :
  In p (pair_df_2025 daily_sum) <->
  exists l r, In l daily_sum /\ In r daily_sum /\ join_match l r = true
              /\ String.ltb (Cum.Exchange l) (Cum.Exchange r) = true
              /\ p = with_advantages (join_rows l r).
Proof.
  unfold pair_df_2025. cbv zeta. rewrite in_map_iff. split.
  - intros (m & <- & Hm). apply filter_In in Hm. destruct Hm as [Hm Hlt].
    apply merge_In in Hm. destruct Hm as (l & r & Hl & Hr & Hj & ->).
    exists l, r. repeat split; assumption.
  - intros (l & r & Hl & Hr & Hj & Hlt & ->).
    exists (join_rows l r). split; [reflexivity|].
    apply filter_In. split; [|exact Hlt]. apply merge_In.
    exists l, r. repeat split; assumption.
Qed.

(** A row of the result pairs the row of [exchange_a] with the row of
    [exchange_b] for the same day of the asset, and exists only when
    [exchange_a] sorts strictly before [exchange_b]. *)
Lemma process_data_In (df : frame) (asset exchange_a exchange_b : string)
                      (p : Pair.t) :
  In p (process_data df asset exchange_a exchange_b) <->
  exists l r,
    In l (cumulative (subset df asset exchange_a exchange_b))
    /\ In r (cumulative (subset df asset exchange_a exchange_b))
    /\ Cum.Base l = asset /\ Cum.Base r = asset
    /\ Cum.Date l = Cum.Date r
    /\ Cum.Exchange l = exchange_a /\ Cum.Exchange r = exchange_b
    /\ String.ltb exchange_a exchange_b = true
    /\ p = with_advantages (join_rows l r).
Proof.
  unfold process_data. cbv zeta. rewrite filter_In, pair_df_2025_In. split.
  - intros [(l & r & Hl & Hr & Hj & Hlt & ->) Hreq].
    unfold requested in Hreq. simpl in Hreq.
    rewrite !andb_true_iff, !String.eqb_eq in Hreq.
    destruct Hreq as [[Hb Ha] Hb'].
    unfold join_match in Hj.
    rewrite andb_true_iff, String.eqb_eq, Z.eqb_eq in Hj.
    destruct Hj as [Hbase Hdate].
    exists l, r. rewrite Ha, Hb' in Hlt.
    repeat split; try assumption. congruence.
  - intros (l & r & Hl & Hr & Hbl & Hbr & Hd & Ha & Hb & Hlt & ->).
    split.
    + exists l, r. unfold join_match.
      rewrite Hbl, Hbr, Hd, Ha, Hb, String.eqb_refl, Z.eqb_refl. auto.
    + unfold requested. simpl.
      now rewrite Hbl, Ha, Hb, !String.eqb_refl.
Qed.

Lemma cumulative_keys (sub : frame) :
  map cum_key (cumulative sub) = map daily_key (groupby_sum sub).
Proof.
  unfold cumulative. cbv zeta.
  now rewrite groupby_cumsum_keys, sort_values_groupby_sum.
Qed.

(** Every row of the cumulative table has an event behind it. *)
Lemma cumulative_In_event (sub : frame) (c : Cum.t) :
  In c (cumulative sub) -> exists e, In e sub /\ ev_key e = cum_key c.
Proof.
  intros Hc. apply (in_map cum_key) in Hc.
  rewrite cumulative_keys, groupby_sum_In in Hc.
  apply in_map_iff in Hc. destruct Hc as (e & He & Hin). eauto.
Qed.

(** The daily totals of a series up to a day of the table are the raw rates
    of the series from the start of the window to that day. *)
Lemma daily_total_raw (df : frame) (asset exchange_a exchange_b : string)
                      (e0 : Ev.t) :
  In e0 (subset df asset exchange_a exchange_b) ->
  daily_total (groupby_sum (subset df asset exchange_a exchange_b))
              (Ev.Base e0) (Ev.Exchange e0) (Ev.Date e0)
  = raw_total df (Ev.Base e0) (Ev.Exchange e0)
              (fst (window df asset exchange_a exchange_b)) (Ev.Date e0).
Proof.
  intros He0. apply subset_In in He0.
  destruct He0 as (_ & Hw & Hbase & Hex).
  apply in_window_bounds in Hw. destruct Hw as (lo & hi & Ew & Hlo & Hhi).
  unfold daily_total, raw_total.
  pose (P := fun k : key =>
               (fst (fst k) =? Ev.Base e0)%string
               && (snd (fst k) =? Ev.Exchange e0)%string
               && (snd k <=? Ev.Date e0)).
  change (Qsum (map Daily.DailyFunding
                    (filter (fun r => P (daily_key r))
                            (groupby_sum
                               (subset df asset exchange_a exchange_b))))
          = Qsum (map Ev.FundingRate
                      (filter (fun e =>
                                 (Ev.Base e =? Ev.Base e0)%string
                                 && (Ev.Exchange e =? Ev.Exchange e0)%string
                                 && ts_le
                                      (fst (window df asset exchange_a
                                                   exchange_b))
                                      (Some (Ev.Date e))
                                 && (Ev.Date e <=? Ev.Date e0))
                              df))).
  rewrite groupby_sum_total. unfold subset. cbv zeta.
  rewrite filter_filter. do 2 f_equal. apply filter_ext.
  intros e. unfold P, ev_key, in_window. rewrite Ew. cbn [fst snd ts_le].
  destruct (Ev.Base e =? Ev.Base e0)%string eqn:Eb;
    [|now rewrite !andb_false_r].
  destruct (Ev.Exchange e =? Ev.Exchange e0)%string eqn:Ee;
    [|now rewrite !andb_false_r].
  destruct (Ev.Date e <=? Ev.Date e0) eqn:Ed;
    [|now rewrite !andb_false_r].
  apply String.eqb_eq in Eb, Ee. apply Z.leb_le in Ed.
  rewrite Eb, Ee, Hbase, String.eqb_refl.
  assert (Hor : ((Ev.Exchange e0 =? exchange_a)%string
                 || (Ev.Exchange e0 =? exchange_b)%string) = true).
  { apply orb_true_iff. rewrite !String.eqb_eq. exact Hex. }
  rewrite Hor.
  assert (Hle : (Ev.Date e <=? hi) = true) by (apply Z.leb_le; lia).
  rewrite Hle. now rewrite !andb_true_r.
Qed.

(** The same for a row of the cumulative table. *)
Lemma cumulative_row_total (df : frame) (asset exchange_a exchange_b : string)
                           (c : Cum.t) :
  In c (cumulative (subset df asset exchange_a exchange_b)) ->
  Cum.CumulativeFunding c
  = daily_total (sort_values
                   (groupby_sum (subset df asset exchange_a exchange_b)))
                (Cum.Base c) (Cum.Exchange c) (Cum.Date c)
  /\ daily_total (sort_values
                    (groupby_sum (subset df asset exchange_a exchange_b)))
                 (Cum.Base c) (Cum.Exchange c) (Cum.Date c)
     = raw_total df (Cum.Base c) (Cum.Exchange c)
                 (fst (window df asset exchange_a exchange_b)) (Cum.Date c).
Proof.
  intros Hc. split.
  - apply cumsum_prefix_total; [apply sort_rows_sorted| |exact Hc].
    rewrite sort_values_groupby_sum. apply groupby_sum_NoDup.
  - apply cumulative_In_event in Hc. destruct Hc as (e0 & He0 & Hk).
    unfold ev_key, cum_key in Hk. injection Hk as <- <- <-.
    rewrite sort_values_groupby_sum. now apply daily_total_raw.
Qed.

Lemma get_min_max_date_observed (df : frame) (asset venue : string) (d : Z) :
  In d (map Ev.Date
            (filter (fun e => (Ev.Base e =? asset)%string
                              && (Ev.Exchange e =? venue)%string) df))
  <-> observed_on df asset venue d.
Proof.
  unfold observed_on. rewrite in_map_iff. split.
  - intros (e & Hd & He). apply filter_In in He. destruct He as [He Hm].
    rewrite andb_true_iff, !String.eqb_eq in Hm. exists e. tauto.
  - intros (e & He & Hb & Hx & Hd). exists e. split; [exact Hd|].
    apply filter_In. rewrite andb_true_iff, !String.eqb_eq. tauto.
Qed.

(** [get_min_max_date] returns the first and the last day on which the venue
    is observed for the asset. *)
Lemma get_min_max_date_Some (df : frame) (asset venue : string) (lo hi : Z) :
  is_min_day df asset venue lo -> is_max_day df asset venue hi ->
  get_min_max_date df asset venue = (Some lo, Some hi).
Proof.
  intros [Hlo Hleast] [Hhi Hmost]. unfold get_min_max_date. cbv zeta.
  set (col := map Ev.Date _).
  assert (Hcol : forall d, In d col <-> observed_on df asset venue d)
    by (intros d; apply get_min_max_date_observed).
  destruct (series_min col) as [lo'|] eqn:Emin.
  2:{ apply series_min_None in Emin. apply Hcol in Hlo.
      rewrite Emin in Hlo. destruct Hlo. }
  destruct (series_max col) as [hi'|] eqn:Emax.
  2:{ apply series_max_None in Emax. apply Hcol in Hlo.
      rewrite Emax in Hlo. destruct Hlo. }
  apply series_min_Some in Emin. destruct Emin as [Hin Hall].
  apply series_max_Some in Emax. destruct Emax as [Hin' Hall'].
  assert (lo' = lo).
  { apply Z.le_antisymm; [apply Hall, Hcol, Hlo | apply Hleast, Hcol, Hin]. }
  assert (hi' = hi).
  { apply Z.le_antisymm; [apply Hmost, Hcol, Hin' | apply Hall', Hcol, Hhi]. }
  now subst.
Qed.

(** With no event of the venue for the asset both dates are [NaT]. *)
Lemma get_min_max_date_NaT (df : frame) (asset venue : string) :
  (forall d, ~ observed_on df asset venue d) ->
  get_min_max_date df asset venue = (NaT, NaT).
Proof.
  intros Hnone. unfold get_min_max_date. cbv zeta.
  set (col := map Ev.Date _).
  assert (Ecol : col = []).
  { destruct col as [|d col'] eqn:E; [reflexivity|].
    exfalso. apply (Hnone d). apply get_min_max_date_observed.
    fold col. rewrite E. now left. }
  now rewrite Ecol.
Qed.

Lemma no_rows {A : Type} (l : list A) : (forall x, ~ In x l) -> l = [].
Proof.
  destruct l as [|x l]; [reflexivity|]. intros H.
  exfalso. apply (H x). now left.
Qed.

(** A row of the result has, for each of its two venues, an event of the
    asset on the day of the row, inside the window. *)
Lemma process_data_row_events (df : frame) (asset exchange_a exchange_b : string)
                              (p : Pair.t) :
  In p (process_data df asset exchange_a exchange_b) ->
  exists ea eb,
    In ea (subset df asset exchange_a exchange_b)
    /\ In eb (subset df asset exchange_a exchange_b)
    /\ ev_key ea = (asset, exchange_a, Pair.Date p)
    /\ ev_key eb = (asset, exchange_b, Pair.Date p).
Proof.
  intros Hp. apply process_data_In in Hp.
  destruct Hp as (l & r & Hl & Hr & Hbl & Hbr & Hd & Ha & Hb & _ & ->).
  apply cumulative_In_event in Hl, Hr.
  destruct Hl as (ea & Hea & Ka), Hr as (eb & Heb & Kb).
  exists ea, eb. repeat split; try assumption.
  - rewrite Ka. unfold cum_key. simpl. congruence.
  - rewrite Kb. unfold cum_key. simpl. congruence.
Qed.

(** ** Evaluating the pipeline on a concrete table *)

Lemma Cum_mk_eq (b b' e e' : string) (d d' : Z) (f f' c c' : Qc) :
  b = b' -> e = e' -> d = d' -> (f == f')%Q -> (c == c')%Q ->
  Cum.mk b e d f c = Cum.mk b' e' d' f' c'.
Proof.
  intros -> -> -> Hf Hc.
  apply Qc_is_canon in Hf, Hc. now subst.
Qed.

Lemma Pair_mk_eq (b b' ea ea' eb eb' : string) (d d' : Z)
                 (da da' ca ca' db db' cb cb' al al' bl bl' : Qc) :
  b = b' -> d = d' -> ea = ea' -> (da == da')%Q -> (ca == ca')%Q ->
  eb = eb' -> (db == db')%Q -> (cb == cb')%Q ->
  (al == al')%Q -> (bl == bl')%Q ->
  Pair.mk b d ea da ca eb db cb al bl
  = Pair.mk b' d' ea' da' ca' eb' db' cb' al' bl'.
Proof.
  intros -> -> -> Hda Hca -> Hdb Hcb Hal Hbl.
  apply Qc_is_canon in Hda, Hca, Hdb, Hcb, Hal, Hbl. now subst.
Qed.

(** Closes an equation between two concrete tables, row by row; rates are
    compared as fractions. *)
Ltac table_eq :=
  vm_compute;
  repeat (apply f_equal2;
          [first [apply Cum_mk_eq | apply Pair_mk_eq]; reflexivity|]);
  reflexivity.

Lemma scenario_cumulative_eq :
  cumulative (subset scenario "BTC" "X" "Y") = scenario_cumulative.
Proof. table_eq. Qed.

Lemma scenario_result :
  process_data scenario "BTC" "X" "Y" = [scenario_day1; scenario_day2].
Proof. table_eq. Qed.

(** ** The claims *)

(** In exact arithmetic: the table is sorted by (asset, venue, day) before
    the cumulative pass, and on every row of the cumulative table, and for both venues of every
    row that [process_data] returns, [CumulativeFunding] on day D is the sum
    of the [DailyFunding] totals of the same (asset, venue) series for the
    days up to D, and that sum is the direct sum of the raw [FundingRate] of
    the events of the asset and venue from the start of the window to D. *)
Theorem cumulative_funding_is_prefix_sum
  (df : frame) (asset exchange_a exchange_b : string) :
  let daily_sum :=
    sort_values (groupby_sum (subset df asset exchange_a exchange_b)) in
  let start := fst (window df asset exchange_a exchange_b) in
  sorted_by daily_key daily_sum
  /\ (forall c, In c (groupby_cumsum no_total daily_sum) ->
        Cum.CumulativeFunding c
        = daily_total daily_sum (Cum.Base c) (Cum.Exchange c) (Cum.Date c)
        /\ daily_total daily_sum (Cum.Base c) (Cum.Exchange c) (Cum.Date c)
           = raw_total df (Cum.Base c) (Cum.Exchange c) start (Cum.Date c))
  /\ (forall p, In p (process_data df asset exchange_a exchange_b) ->
        Pair.CumulativeFunding_a p
        = daily_total daily_sum (Pair.Base p) (Pair.Exchange_a p)
                      (Pair.Date p)
        /\ daily_total daily_sum (Pair.Base p) (Pair.Exchange_a p)
                       (Pair.Date p)
           = raw_total df (Pair.Base p) (Pair.Exchange_a p) start
                       (Pair.Date p)
        /\ Pair.CumulativeFunding_b p
           = daily_total daily_sum (Pair.Base p) (Pair.Exchange_b p)
                         (Pair.Date p)
        /\ daily_total daily_sum (Pair.Base p) (Pair.Exchange_b p)
                       (Pair.Date p)
           = raw_total df (Pair.Base p) (Pair.Exchange_b p) start
                       (Pair.Date p)).
Proof.
  cbv zeta. split; [apply sort_rows_sorted|]. split.
  - intros c Hc. now apply cumulative_row_total.
  - intros p Hp. apply process_data_In in Hp.
    destruct Hp as (l & r & Hl & Hr & Hbl & Hbr & Hd & _ & _ & _ & ->).
    apply cumulative_row_total in Hl, Hr.
    destruct Hl as [Hl1 Hl2], Hr as [Hr1 Hr2].
    cbn [with_advantages join_rows Pair.CumulativeFunding_a
         Pair.CumulativeFunding_b Pair.Base Pair.Exchange_a Pair.Exchange_b
         Pair.Date Merged.Base Merged.Date Merged.Exchange_a
         Merged.Exchange_b Merged.CumulativeFunding_a
         Merged.CumulativeFunding_b].
    rewrite <- Hd, Hbr in Hr1, Hr2. rewrite Hbl in Hl1, Hl2. rewrite Hbl.
    repeat split; assumption.
Qed.

Lemma cumulative_funding_is_prefix_sum_witness :
  In scenario_day2 (process_data scenario "BTC" "X" "Y")
  /\ Pair.CumulativeFunding_a scenario_day2
     = raw_total scenario "BTC" "X" (Some 1) 2
  /\ Pair.CumulativeFunding_b scenario_day2
     = raw_total scenario "BTC" "Y" (Some 1) 2.
Proof.
  assert (Hin : In scenario_day2 (process_data scenario "BTC" "X" "Y")).
  { rewrite scenario_result. right. left. reflexivity. }
  split; [exact Hin|].
  destruct (cumulative_funding_is_prefix_sum scenario "BTC" "X" "Y")
    as (_ & _ & H).
  destruct (H _ Hin) as (E1 & E2 & E3 & E4).
  split; [rewrite E1; exact E2 | rewrite E3; exact E4].
Defined.



(** C4. When both venues are observed for the asset, the window is the
    closed range from the later of the two first days to the earlier of the
    two last days; [process_data] aggregates exactly the events of the asset
    and the two venues whose day lies in it, no row of the cumulative table
    or of the result has a day outside it, and when the start exceeds the
    end the result has no rows. *)
Theorem window_is_intersection
  (df : frame) (asset exchange_a exchange_b : string)
  (lo_a hi_a lo_b hi_b : Z) :
  is_min_day df asset exchange_a lo_a ->
  is_max_day df asset exchange_a hi_a ->
  is_min_day df asset exchange_b lo_b ->
  is_max_day df asset exchange_b hi_b ->
  let start := Z.max lo_a lo_b in
  let stop := Z.min hi_a hi_b in
  window df asset exchange_a exchange_b = (Some start, Some stop)
  /\ (forall e, In e (subset df asset exchange_a exchange_b) <->
                In e df /\ Ev.Base e = asset
                /\ (Ev.Exchange e = exchange_a \/ Ev.Exchange e = exchange_b)
                /\ start <= Ev.Date e <= stop)
  /\ (forall c, In c (cumulative (subset df asset exchange_a exchange_b)) ->
                start <= Cum.Date c <= stop)
  /\ (forall p, In p (process_data df asset exchange_a exchange_b) ->
                start <= Pair.Date p <= stop)
  /\ (stop < start -> process_data df asset exchange_a exchange_b = []).
Proof.
  intros Hlo_a Hhi_a Hlo_b Hhi_b start stop.
  assert (Ew : window df asset exchange_a exchange_b
               = (Some start, Some stop)).
  { unfold window.
    rewrite (get_min_max_date_Some _ _ _ _ _ Hlo_a Hhi_a).
    rewrite (get_min_max_date_Some _ _ _ _ _ Hlo_b Hhi_b).
    unfold py_max, py_min, ts_lt, start, stop.
    destruct (lo_a <? lo_b) eqn:E1; destruct (hi_b <? hi_a) eqn:E2;
      rewrite ?Z.ltb_lt, ?Z.ltb_ge in E1, E2; repeat f_equal; lia. }
  assert (Hsub : forall e,
             In e (subset df asset exchange_a exchange_b) <->
             In e df /\ Ev.Base e = asset
             /\ (Ev.Exchange e = exchange_a \/ Ev.Exchange e = exchange_b)
             /\ start <= Ev.Date e <= stop).
  { intros e. rewrite subset_In, in_window_bounds, Ew. split.
    - intros (He & (lo & hi & [= <- <-] & Hr) & Hb & Hx). tauto.
    - intros (He & Hb & Hx & Hr). repeat split; try tauto.
      exists start, stop. tauto. }
  assert (Hcum : forall c,
             In c (cumulative (subset df asset exchange_a exchange_b)) ->
             start <= Cum.Date c <= stop).
  { intros c Hc. apply cumulative_In_event in Hc.
    destruct Hc as (e & He & Hk). apply Hsub in He.
    unfold ev_key, cum_key in Hk. injection Hk as _ _ <-. tauto. }
  assert (Hres : forall p,
             In p (process_data df asset exchange_a exchange_b) ->
             start <= Pair.Date p <= stop).
  { intros p Hp. apply process_data_In in Hp.
    destruct Hp as (l & r & Hl & _ & _ & _ & _ & _ & _ & _ & ->).
    apply Hcum in Hl. exact Hl. }
  repeat split; try assumption; try (now apply Hsub); try (now apply Hcum);
    try (now apply Hres).
  intros Hempty. apply no_rows. intros p Hp. apply Hres in Hp. lia.
Qed.

Lemma window_is_intersection_witness :
  window staggered "ETH" "A" "B" = (Some 10, Some 20)
  /\ Forall (fun p => 10 <= Pair.Date p <= 20)
            (process_data staggered "ETH" "A" "B").
Proof.
  assert (Hobs : forall v d,
             In d (map Ev.Date
                       (filter (fun e => (Ev.Base e =? "ETH")%string
                                         && (Ev.Exchange e =? v)%string)
                               staggered)) ->
             observed_on staggered "ETH" v d)
    by (intros v d; apply get_min_max_date_observed).
  assert (Hall : forall v d, observed_on staggered "ETH" v d ->
             In d (map Ev.Date
                       (filter (fun e => (Ev.Base e =? "ETH")%string
                                         && (Ev.Exchange e =? v)%string)
                               staggered)))
    by (intros v d; apply get_min_max_date_observed).
  destruct (window_is_intersection staggered "ETH" "A" "B" 5 20 10 30)
    as (Hw & _ & _ & Hres & _).
  - split; [apply Hobs; simpl; tauto|].
    intros d Hd. apply Hall in Hd. simpl in Hd. lia.
  - split; [apply Hobs; simpl; tauto|].
    intros d Hd. apply Hall in Hd. simpl in Hd. lia.
  - split; [apply Hobs; simpl; tauto|].
    intros d Hd. apply Hall in Hd. simpl in Hd. lia.
  - split; [apply Hobs; simpl; tauto|].
    intros d Hd. apply Hall in Hd. simpl in Hd. lia.
  - split; [exact Hw | apply Forall_forall; exact Hres].
Defined.

(** C5. When one of the two requested venues has no event for the asset,
    [process_data] returns the empty table. *)
Theorem missing_venue_is_empty
  (df : frame) (asset exchange_a exchange_b : string) :
  (forall d, ~ observed_on df asset exchange_a d)
  \/ (forall d, ~ observed_on df asset exchange_b d) ->
  process_data df asset exchange_a exchange_b = [].
Proof.
  intros Hmiss. apply no_rows. intros p Hp.
  apply process_data_row_events in Hp.
  destruct Hp as (ea & eb & Hea & Heb & Ka & Kb).
  apply subset_In in Hea, Heb.
  unfold ev_key in Ka, Kb. injection Ka as Ba Xa Da. injection Kb as Bb Xb Db.
  destruct Hmiss as [Hnone|Hnone]; apply (Hnone (Pair.Date p)).
  - exists ea. tauto.
  - exists eb. tauto.
Qed.

Lemma missing_venue_is_empty_witness :
  process_data scenario "BTC" "X" "Z" = []
  /\ process_data scenario "BTC" "Z" "X" = [].
Proof.
  split; apply missing_venue_is_empty; [right | left];
    intros d (e & He & _ & Hx & _); simpl in He;
    repeat (destruct He as [<-|He]; [discriminate Hx|]); exact He.
Defined.

(** C10. When [exchange_a] does not sort strictly before [exchange_b] (the
    two are equal, or [exchange_a] sorts after [exchange_b]),
    [process_data] returns the empty table, whatever the data. *)
Theorem unordered_request_is_empty
  (df : frame) (asset exchange_a exchange_b : string) :
  String.ltb exchange_a exchange_b = false ->
  process_data df asset exchange_a exchange_b = [].
Proof.
  intros Hge. apply no_rows. intros p Hp. apply process_data_In in Hp.
  destruct Hp as (l & r & _ & _ & _ & _ & _ & _ & _ & Hlt & _).
  congruence.
Qed.

Lemma unordered_request_is_empty_witness :
  process_data scenario "BTC" "Y" "X" = []
  /\ process_data scenario "BTC" "X" "X" = [].
Proof.
  split; apply unordered_request_is_empty; reflexivity.
Defined.

(** The days of the result on the staggered table: neither the days 5 to 9
    nor the days 21 to 30 appear. *)
Example staggered_days :
  map Pair.Date (process_data staggered "ETH" "A" "B") = [12; 20].
Proof. reflexivity. Qed.

(** In exact arithmetic, on the four events of the scenario, the daily
    totals and running totals are 0.0001, 0.0002 (running 0.0001, 0.0003) for X and -0.0001,
    0.0001 (running -0.0001, 0.0000) for Y, and the row of day 2 for the
    pair (X, Y) has [along_bshort] = -0.0003 and [blong_ashort] = 0.0003. *)
Theorem scenario_values :
  cumulative (subset scenario "BTC" "X" "Y")
  = [ Cum.mk "BTC" "X" 1 (rate 1) (rate 1);
      Cum.mk "BTC" "X" 2 (rate 2) (rate 3);
      Cum.mk "BTC" "Y" 1 (rate (-1)) (rate (-1));
      Cum.mk "BTC" "Y" 2 (rate 1) (rate 0) ]
  /\ (exists day1,
        process_data scenario "BTC" "X" "Y"
        = [ day1;
            Pair.mk "BTC" 2 "X" (rate 2) (rate 3) "Y" (rate 1) (rate 0)
                    (rate (-3)) (rate 3) ])
  /\ (rate 1 == 0.0001)%Q /\ (rate 2 == 0.0002)%Q /\ (rate 3 == 0.0003)%Q
  /\ (rate (-1) == -0.0001)%Q /\ (rate 0 == 0)%Q /\ (rate (-3) == -0.0003)%Q.
Proof.
  split; [exact scenario_cumulative_eq|].
  split; [exists scenario_day1; exact scenario_result|].
  repeat split; reflexivity.
Qed.

(** ** Counting the rows of a key *)

Lemma count_key_NoDup (k : key) (ks : list key) :
  NoDup ks ->
  List.length (filter (fun k' => key_eqb k' k) ks)
  = if existsb (key_eqb k) ks then 1%nat else 0%nat.
Proof.
  induction 1 as [|k0 ks Hnotin Hnd IH]; simpl; [reflexivity|].
  destruct (key_eqb k0 k) eqn:E.
  - apply key_eqb_eq in E. subst k0. rewrite key_eqb_refl. simpl.
    rewrite IH.
    destruct (existsb (key_eqb k) ks) eqn:Ex; [|reflexivity].
    apply existsb_key_In in Ex. contradiction.
  - assert (E' : key_eqb k k0 = false).
    { apply key_eqb_neq. apply key_eqb_neq in E. congruence. }
    rewrite E'. simpl. exact IH.
Qed.

(** C6. For every key (asset, venue, day), the daily aggregation of the
    events of the window has exactly one row when some event of [subset]
    carries the key, and no row otherwise. *)
Theorem one_daily_row_per_observed_key
  (df : frame) (asset exchange_a exchange_b : string) (k : key) :
  let sub := subset df asset exchange_a exchange_b in
  List.length (filter (fun r => key_eqb (daily_key r) k) (groupby_sum sub))
  = if existsb (fun e => key_eqb (ev_key e) k) sub then 1%nat else 0%nat.
Proof.
  cbv zeta. set (sub := subset df asset exchange_a exchange_b).
  assert (E : List.length (filter (fun r => key_eqb (daily_key r) k)
                                  (groupby_sum sub))
              = List.length (filter (fun k' => key_eqb k' k)
                                    (map daily_key (groupby_sum sub))))
    by (now rewrite filter_map_swap, length_map).
  rewrite E.
  rewrite count_key_NoDup by apply groupby_sum_NoDup.
  assert (Hiff : existsb (key_eqb k) (map daily_key (groupby_sum sub)) = true
                 <-> existsb (fun e => key_eqb (ev_key e) k) sub = true).
  { rewrite existsb_key_In, groupby_sum_In, in_map_iff, existsb_exists.
    split; intros (e & H1 & H2); exists e.
    - split; [exact H2 | now apply key_eqb_eq].
    - apply key_eqb_eq in H2. tauto. }
  destruct (existsb (key_eqb k) (map daily_key (groupby_sum sub)));
    destruct (existsb (fun e => key_eqb (ev_key e) k) sub);
    try reflexivity.
  - destruct Hiff as [H _]. discriminate (H eq_refl).
  - destruct Hiff as [_ H]. discriminate (H eq_refl).
Qed.

(** ** One row per pair of venues *)

Lemma NoDup_map_filter {A B : Type} (f : A -> B) (P : A -> bool) (l : list A) :
  NoDup (map f l) -> NoDup (map f (filter P l)).
Proof.
  induction l as [|x l IH]; simpl; intros Hnd; [constructor|].
  apply NoDup_cons_iff in Hnd. destruct Hnd as [Hx Hnd].
  destruct (P x); simpl; [|now apply IH].
  constructor; [|now apply IH].
  rewrite in_map_iff in *. intros (y & Hy & Hin).
  apply Hx. exists y. apply filter_In in Hin. tauto.
Qed.

Lemma NoDup_map_transfer {A B C : Type} (f : A -> B) (g : A -> C)
                         (l : list A) :
  (forall x y, In x l -> In y l -> g x = g y -> f x = f y) ->
  NoDup (map f l) -> NoDup (map g l).
Proof.
  induction l as [|x l IH]; simpl; intros Hinj Hnd; [constructor|].
  apply NoDup_cons_iff in Hnd. destruct Hnd as [Hx Hnd].
  constructor.
  - rewrite in_map_iff in *. intros (y & Hy & Hin).
    apply Hx. exists y. split; [|exact Hin].
    symmetry. apply Hinj; auto.
  - apply IH; [|exact Hnd]. intros; apply Hinj; auto.
Qed.

Lemma merge_NoDup (left right : list Cum.t) :
  NoDup (map cum_key left) -> NoDup (map cum_key right) ->
  NoDup (map merged_key (merge left right)).
Proof.
  intros Hl Hr. induction left as [|l left IH]; simpl; [constructor|].
  apply NoDup_cons_iff in Hl. destruct Hl as [Hnotin Hl].
  rewrite map_app. apply NoDup_app.
  - rewrite map_map.
    apply NoDup_map_transfer with (f := cum_key);
      [|now apply NoDup_map_filter].
    intros x y Hx Hy. apply filter_In in Hx, Hy.
    destruct Hx as [_ Hx], Hy as [_ Hy]. unfold join_match in *.
    rewrite andb_true_iff, String.eqb_eq, Z.eqb_eq in Hx, Hy.
    unfold merged_key, join_rows, cum_key. simpl. intros [= E].
    destruct Hx as [<- <-], Hy as [<- <-]. now rewrite E.
  - now apply IH.
  - intros k Hk1 Hk2. apply in_map_iff in Hk1, Hk2.
    destruct Hk1 as (m1 & <- & Hm1), Hk2 as (m2 & E & Hm2).
    apply in_map_iff in Hm1. destruct Hm1 as (r1 & <- & _).
    apply merge_In in Hm2. destruct Hm2 as (l2 & r2 & Hl2 & _ & _ & ->).
    apply Hnotin. apply in_map_iff. exists l2. split; [|exact Hl2].
    unfold merged_key, join_rows, cum_key in *. simpl in E.
    congruence.
Qed.

Lemma cumulative_NoDup (sub : frame) : NoDup (map cum_key (cumulative sub)).
Proof. rewrite cumulative_keys. apply groupby_sum_NoDup. Qed.

Lemma pair_df_2025_NoDup (daily_sum : list Cum.t) :
  NoDup (map cum_key daily_sum) ->
  NoDup (map pair_key (pair_df_2025 daily_sum)).
Proof.
  intros Hnd. unfold pair_df_2025. cbv zeta. rewrite map_map.
  change (fun m => pair_key (with_advantages m)) with merged_key.
  apply NoDup_map_filter. now apply merge_NoDup.
Qed.

Lemma scenario_pair_table :
  pair_df_2025 (cumulative (subset scenario "BTC" "X" "Y"))
  = [scenario_day1; scenario_day2].
Proof. table_eq. Qed.

(** C3. Every row of the joined and filtered pair table has [Exchange_a]
    strictly before [Exchange_b] in the lexicographic order, so never a venue
    paired with itself; and two rows of the table for the same asset and day
    never carry the same unordered pair of venues, in either order. *)
Theorem pair_table_is_canonical
  (df : frame) (asset exchange_a exchange_b : string) :
  let table :=
    pair_df_2025 (cumulative (subset df asset exchange_a exchange_b)) in
  (forall p, In p table ->
     String.ltb (Pair.Exchange_a p) (Pair.Exchange_b p) = true
     /\ Pair.Exchange_a p <> Pair.Exchange_b p)
  /\ (forall i j p q,
        nth_error table i = Some p -> nth_error table j = Some q ->
        Pair.Base p = Pair.Base q -> Pair.Date p = Pair.Date q ->
        (Pair.Exchange_a p = Pair.Exchange_a q
         /\ Pair.Exchange_b p = Pair.Exchange_b q)
        \/ (Pair.Exchange_a p = Pair.Exchange_b q
            /\ Pair.Exchange_b p = Pair.Exchange_a q) ->
        i = j).
Proof.
  cbv zeta.
  set (table := pair_df_2025 _).
  assert (Hlt : forall p, In p table ->
            String.ltb (Pair.Exchange_a p) (Pair.Exchange_b p) = true).
  { intros p Hp. apply pair_df_2025_In in Hp.
    destruct Hp as (l & r & _ & _ & _ & Hlt & ->). exact Hlt. }
  split.
  - intros p Hp. split; [now apply Hlt|].
    intros E. specialize (Hlt p Hp).
    rewrite E, string_ltb_irrefl in Hlt. discriminate.
  - intros i j p q Hi Hj Hb Hd [[Ha Hb']|[Ha Hb']].
    + assert (Hnd : NoDup (map pair_key table))
        by apply pair_df_2025_NoDup, cumulative_NoDup.
      rewrite NoDup_nth_error in Hnd. apply Hnd.
      * rewrite length_map. apply nth_error_Some. congruence.
      * rewrite !nth_error_map, Hi, Hj. simpl. unfold pair_key. congruence.
    + pose proof (Hlt p (nth_error_In _ _ Hi)) as Hp.
      pose proof (Hlt q (nth_error_In _ _ Hj)) as Hq.
      rewrite Ha, Hb' in Hp. apply string_ltb_asym in Hp. congruence.
Qed.

Lemma pair_table_is_canonical_witness :
  In scenario_day2 (pair_df_2025 (cumulative (subset scenario "BTC" "X" "Y")))
  /\ String.ltb (Pair.Exchange_a scenario_day2) (Pair.Exchange_b scenario_day2)
     = true.
Proof.
  assert (Hin : In scenario_day2
                   (pair_df_2025 (cumulative (subset scenario "BTC" "X" "Y")))).
  { rewrite scenario_pair_table. right. left. reflexivity. }
  split; [exact Hin|].
  destruct (pair_table_is_canonical scenario "BTC" "X" "Y") as [H _].
  exact (proj1 (H _ Hin)).
Defined.

(** ** The result, row by row of the left table *)

Lemma filter_flat_map {A B : Type} (P : B -> bool) (f : A -> list B)
                      (l : list A) :
  filter P (flat_map f l) = flat_map (fun x => filter P (f x)) l.
Proof.
  induction l as [|x l IH]; simpl; [reflexivity|].
  now rewrite filter_app, IH.
Qed.

Lemma map_flat_map {A B C : Type} (h : B -> C) (f : A -> list B)
                   (l : list A) :
  map h (flat_map f l) = flat_map (fun x => map h (f x)) l.
Proof.
  induction l as [|x l IH]; simpl; [reflexivity|].
  now rewrite map_app, IH.
Qed.

Lemma result_by_rows (asset exchange_a exchange_b : string)
                     (daily_sum : list Cum.t) :
  filter (requested asset exchange_a exchange_b) (pair_df_2025 daily_sum)
  = flat_map (rows_from asset exchange_a exchange_b daily_sum) daily_sum.
Proof.
  unfold pair_df_2025, merge. cbv zeta.
  now rewrite filter_flat_map, map_flat_map, filter_flat_map.
Qed.

Lemma rows_from_kept (asset exchange_a exchange_b : string)
                     (right : list Cum.t) (l : Cum.t) :
  rows_from asset exchange_a exchange_b right l
  = map (fun r => with_advantages (join_rows l r))
        (filter (kept asset exchange_a exchange_b l) right).
Proof.
  unfold rows_from, kept.
  induction right as [|r right IH]; [reflexivity|].
  cbn [filter]. destruct (join_match l r); cbn [andb map filter];
    [|exact IH].
  change (Merged.Exchange_a (join_rows l r)) with (Cum.Exchange l).
  change (Merged.Exchange_b (join_rows l r)) with (Cum.Exchange r).
  destruct (String.ltb (Cum.Exchange l) (Cum.Exchange r));
    cbn [andb map filter]; [|exact IH].
  destruct (requested asset exchange_a exchange_b
                      (with_advantages (join_rows l r)));
    cbn [map]; [|exact IH].
  now rewrite IH.
Qed.

Lemma kept_true (asset exchange_a exchange_b : string) (l r : Cum.t) :
  kept asset exchange_a exchange_b l r = true ->
  Cum.Base l = asset /\ Cum.Exchange l = exchange_a
  /\ Cum.Exchange r = exchange_b /\ Cum.Date l = Cum.Date r.
Proof.
  unfold kept, requested, join_match. simpl.
  rewrite !andb_true_iff, !String.eqb_eq, Z.eqb_eq. tauto.
Qed.

Lemma rows_from_In (asset exchange_a exchange_b : string)
                   (right : list Cum.t) (l : Cum.t) (p : Pair.t) :
  In p (rows_from asset exchange_a exchange_b right l) ->
  Pair.Date p = Cum.Date l /\ Cum.Base l = asset
  /\ Cum.Exchange l = exchange_a.
Proof.
  rewrite rows_from_kept, in_map_iff. intros (r & <- & Hr).
  apply filter_In in Hr. destruct Hr as [_ Hk]. apply kept_true in Hk.
  simpl. tauto.
Qed.

(** ** The order of the result *)

Lemma sorted_by_as_keys {A : Type} (kf : A -> key) (l : list A) :
  sorted_by kf l <-> sorted_by (fun k => k) (map kf l).
Proof.
  split; [apply (sorted_by_map (fun k => k) kf)|].
  unfold sorted_by. induction l as [|x l IH]; simpl; intros Hs;
    [constructor|].
  apply StronglySorted_inv in Hs. destruct Hs as [Hs Hx].
  constructor; [now apply IH|].
  rewrite Forall_map in Hx. exact Hx.
Qed.

Lemma cumulative_sorted (sub : frame) : sorted_by cum_key (cumulative sub).
Proof.
  apply (proj2 (sorted_by_as_keys cum_key _)). rewrite cumulative_keys.
  apply (proj1 (sorted_by_as_keys daily_key _)), groupby_sum_sorted.
Qed.

Lemma StronglySorted_app {A : Type} (R : A -> A -> Prop) (l1 l2 : list A) :
  StronglySorted R l1 -> StronglySorted R l2 ->
  (forall x y, In x l1 -> In y l2 -> R x y) ->
  StronglySorted R (l1 ++ l2).
Proof.
  induction 1 as [|x l1 Hs IH Hx]; simpl; intros Hs2 Hcross; [exact Hs2|].
  constructor.
  - apply IH; [exact Hs2|]. intros; apply Hcross; simpl; auto.
  - apply Forall_app. split; [exact Hx|].
    apply Forall_forall. intros y Hy. apply Hcross; simpl; auto.
Qed.

Lemma StronglySorted_same_day (d : Z) (l : list Z) :
  (forall x, In x l -> x = d) -> StronglySorted Z.le l.
Proof.
  induction l as [|x l IH]; intros Hall; constructor.
  - apply IH. intros; apply Hall; simpl; auto.
  - apply Forall_forall. intros y Hy.
    rewrite (Hall x), (Hall y); simpl; auto. lia.
Qed.

Lemma rows_sorted_by_day (asset exchange_a exchange_b : string)
                         (right left : list Cum.t) :
  sorted_by cum_key left ->
  StronglySorted Z.le
    (map Pair.Date
         (flat_map (rows_from asset exchange_a exchange_b right) left)).
Proof.
  unfold sorted_by. induction 1 as [|l left Hs IH Hl]; simpl; [constructor|].
  rewrite map_app. apply StronglySorted_app; [|exact IH|].
  - apply StronglySorted_same_day with (d := Cum.Date l).
    intros d Hd. apply in_map_iff in Hd. destruct Hd as (p & <- & Hp).
    now apply rows_from_In in Hp.
  - intros d d' Hd Hd'. apply in_map_iff in Hd, Hd'.
    destruct Hd as (p & <- & Hp), Hd' as (p' & <- & Hp').
    apply rows_from_In in Hp. destruct Hp as (-> & Hb & Hx).
    apply in_flat_map in Hp'. destruct Hp' as (l' & Hin & Hp').
    apply rows_from_In in Hp'. destruct Hp' as (-> & Hb' & Hx').
    rewrite Forall_forall in Hl. specialize (Hl l' Hin).
    unfold cum_key in Hl. rewrite Hb, Hx, Hb', Hx', key_leb_same_group in Hl.
    now apply Z.leb_le.
Qed.

(** C7. The rows that [process_data] returns are in ascending order of
    day. *)
Theorem result_sorted_by_day
  (df : frame) (asset exchange_a exchange_b : string) :
  StronglySorted Z.le
    (map Pair.Date (process_data df asset exchange_a exchange_b)).
Proof.
  unfold process_data. cbv zeta. rewrite result_by_rows.
  apply rows_sorted_by_day, cumulative_sorted.
Qed.

(** ** Restricting to the two venues before or after the join *)

Lemma subset_of_all_venues (df : frame) (asset exchange_a exchange_b : string) :
  subset df asset exchange_a exchange_b
  = filter (fun e => (Ev.Exchange e =? exchange_a)%string
                     || (Ev.Exchange e =? exchange_b)%string)
           (subset_all_venues df asset exchange_a exchange_b).
Proof. unfold subset, subset_all_venues. cbv zeta. now rewrite filter_filter. Qed.

(** The cumulative table of the events of some venues is the cumulative
    table of all the events, restricted to these venues. *)
Lemma cumulative_filter (V : string -> bool) (sub : frame) :
  cumulative (filter (fun e => V (Ev.Exchange e)) sub)
  = filter (fun c => V (Cum.Exchange c)) (cumulative sub).
Proof.
  unfold cumulative. cbv zeta. rewrite !sort_values_groupby_sum.
  change (fun e => V (Ev.Exchange e))
    with (fun e => (fun k : key => V (snd (fst k))) (ev_key e)).
  rewrite <- groupby_sum_filter.
  exact (groupby_cumsum_filter (fun g => V (snd g)) (groupby_sum sub)
                               no_total no_total (fun _ _ => eq_refl)).
Qed.

Lemma flat_map_filter_nil {A B : Type} (V : A -> bool) (f : A -> list B)
                          (l : list A) :
  (forall x, V x = false -> f x = []) ->
  flat_map f (filter V l) = flat_map f l.
Proof.
  intros Hnil. induction l as [|x l IH]; simpl; [reflexivity|].
  destruct (V x) eqn:Vx; simpl; [now rewrite IH|].
  now rewrite (Hnil x Vx), IH.
Qed.

(** Only the rows of the two requested venues reach the result. *)
Lemma result_of_two_venues (asset exchange_a exchange_b : string)
                           (daily_sum : list Cum.t) :
  let V := fun c => (Cum.Exchange c =? exchange_a)%string
                    || (Cum.Exchange c =? exchange_b)%string in
  flat_map (rows_from asset exchange_a exchange_b (filter V daily_sum))
           (filter V daily_sum)
  = flat_map (rows_from asset exchange_a exchange_b daily_sum) daily_sum.
Proof.
  intros V. rewrite flat_map_filter_nil.
  - apply flat_map_ext. intros l. rewrite !rows_from_kept, filter_filter.
    f_equal. apply filter_ext. intros r.
    destruct (kept asset exchange_a exchange_b l r) eqn:K;
      [|apply andb_false_r].
    apply kept_true in K. destruct K as (_ & _ & Hb & _).
    unfold V. rewrite Hb, String.eqb_refl. now rewrite orb_true_r.
  - intros l Vl. rewrite rows_from_kept.
    rewrite (filter_ext_in _ (fun _ => false)), filter_false; [reflexivity|].
    intros r _.
    destruct (kept asset exchange_a exchange_b l r) eqn:K; [|reflexivity].
    apply kept_true in K. destruct K as (_ & Ha & _).
    unfold V in Vl. rewrite Ha, String.eqb_refl in Vl. discriminate.
Qed.

(** C8. Restricting the events to the two requested venues before the
    grouped sum, the cumulative sum and the self-join, as [process_data]
    does, gives the same rows in the same order as running these stages over
    all the venues of the asset and selecting the requested pair at the end,
    the test [Exchange_a < Exchange_b] being applied in both. *)
Theorem restriction_before_join_is_equivalent
  (df : frame) (asset exchange_a exchange_b : string) :
  process_data df asset exchange_a exchange_b
  = process_data_all_venues df asset exchange_a exchange_b.
Proof.
  unfold process_data, process_data_all_venues. cbv zeta.
  rewrite !result_by_rows, subset_of_all_venues.
  rewrite (cumulative_filter
             (fun x => (x =? exchange_a)%string || (x =? exchange_b)%string)).
  apply result_of_two_venues.
Qed.

(** The two versions on a table with a third and a fourth venue. *)
Example three_venues_dates :
  map Pair.Date (process_data three_venues "BTC" "X" "Y") = [1; 2]
  /\ map Pair.Date (process_data_all_venues three_venues "BTC" "X" "Y")
     = [1; 2]
  /\ List.length (pair_df_2025
                    (cumulative (subset_all_venues three_venues
                                                   "BTC" "X" "Y")))
     = 9%nat.
Proof. repeat split. Qed.

(** ** Loading: the five-minute grid and the day *)

Lemma round_5min_cases (ms : Z) :
  exists q r,
    ms = q * 300000 + r /\ 0 <= r < 300000
    /\ ((r < 150000 /\ round_5min ms = q * 300000)
        \/ (150000 < r /\ round_5min ms = (q + 1) * 300000)
        \/ (r = 150000 /\ (exists m, q = 2 * m)
            /\ round_5min ms = q * 300000)
        \/ (r = 150000 /\ (exists m, q = 2 * m + 1)
            /\ round_5min ms = (q + 1) * 300000)).
Proof.
  exists (ms / 300000), (ms mod 300000).
  pose proof (Z.div_mod ms 300000 ltac:(lia)) as Hdm.
  pose proof (Z.mod_pos_bound ms 300000 ltac:(lia)) as Hr.
  split; [lia|]. split; [exact Hr|].
  unfold round_5min, ms_5min. cbv zeta.
  change (300000 / 2) with 150000.
  destruct (150000 <? ms mod 300000) eqn:Egt.
  - apply Z.ltb_lt in Egt. right. left. simpl. split; [exact Egt|reflexivity].
  - apply Z.ltb_ge in Egt. simpl.
    destruct (ms mod 300000 =? 150000) eqn:Etie.
    + apply Z.eqb_eq in Etie. simpl.
      destruct (Z.odd (ms / 300000)) eqn:Eodd.
      * right. right. right. split; [exact Etie|]. split; [|reflexivity].
        apply Z.odd_spec in Eodd. exact Eodd.
      * right. right. left. split; [exact Etie|]. split; [|reflexivity].
        rewrite <- Z.negb_even in Eodd. apply negb_false_iff in Eodd.
        apply Z.even_spec in Eodd. exact Eodd.
    + apply Z.eqb_neq in Etie. simpl. left. split; [lia|reflexivity].
Qed.

(** X1. The timestamp that [load_data] keeps lies on the five-minute grid,
    at most 150 seconds away from the timestamp of the file, and a timestamp
    already on the grid is kept as it is. *)
Theorem loaded_timestamp_on_grid (r : Raw.t) :
  Row.Timestamp (load_row r) mod ms_5min = 0
  /\ Raw.Timestamp r - 150000 <= Row.Timestamp (load_row r)
     <= Raw.Timestamp r + 150000
  /\ (Raw.Timestamp r mod ms_5min = 0 ->
      Row.Timestamp (load_row r) = Raw.Timestamp r).
Proof.
  unfold load_row. cbv zeta. cbn [Row.Timestamp]. unfold ms_5min.
  destruct (round_5min_cases (Raw.Timestamp r))
    as (q & rem & Hms & Hrem & Hcases).
  repeat split.
  - destruct Hcases as [[_ ->]|[[_ ->]|[(_ & _ & ->)|(_ & _ & ->)]]];
      apply Z.mod_mul; lia.
  - destruct Hcases as [[? ->]|[[? ->]|[(? & _ & ->)|(? & _ & ->)]]]; lia.
  - destruct Hcases as [[? ->]|[[? ->]|[(? & _ & ->)|(? & _ & ->)]]]; lia.
  - intros Hgrid.
    assert (rem = 0).
    { rewrite Hms in Hgrid. rewrite Z.add_comm, Z.mod_add in Hgrid by lia.
      rewrite Z.mod_small in Hgrid by lia. exact Hgrid. }
    destruct Hcases as [[? ->]|[[? ->]|[(? & _ & ->)|(? & _ & ->)]]]; lia.
Qed.

(** X2. The day that [load_data] gives a row is the day of its timestamp
    moved forward by 150 seconds: the day of the file's timestamp, except for
    the last 150 seconds of a day, which go to the next day. *)
Theorem loaded_date_shifts_last_150_seconds (r : Raw.t) :
  let t := Raw.Timestamp r in
  Row.Date (load_row r) = (t + 150000) / ms_day
  /\ Row.Date (load_row r)
     = if t mod ms_day <? ms_day - 150000 then t / ms_day
       else t / ms_day + 1.
Proof.
  cbv zeta. unfold load_row. cbv zeta. cbn [Row.Date].
  unfold floor_day, ms_day.
  destruct (round_5min_cases (Raw.Timestamp r))
    as (q & rem & Hms & Hrem & Hcases).
  set (t := Raw.Timestamp r) in *.
  assert (Hday : round_5min t / 86400000 = (t + 150000) / 86400000).
  { destruct Hcases
      as [[? ->]|[[? ->]|[(? & [m ->] & ->)|(? & [m ->] & ->)]]];
      Z.div_mod_to_equations; lia. }
  split; [exact Hday|]. rewrite Hday.
  destruct (t mod 86400000 <? 86400000 - 150000) eqn:E;
    [apply Z.ltb_lt in E | apply Z.ltb_ge in E];
    Z.div_mod_to_equations; lia.
Qed.

(** ** More on [get_min_max_date] and the window *)

Lemma observed_min_max (df : frame) (asset venue : string) (d : Z) :
  observed_on df asset venue d ->
  exists lo hi,
    get_min_max_date df asset venue = (Some lo, Some hi)
    /\ is_min_day df asset venue lo /\ is_max_day df asset venue hi
    /\ lo <= d <= hi.
Proof.
  intros Hobs. unfold get_min_max_date. cbv zeta.
  set (col := map Ev.Date _).
  assert (Hcol : forall x, In x col <-> observed_on df asset venue x)
    by (intros x; apply get_min_max_date_observed).
  apply Hcol in Hobs.
  destruct (series_min col) as [lo|] eqn:Emin.
  2:{ apply series_min_None in Emin. rewrite Emin in Hobs. destruct Hobs. }
  destruct (series_max col) as [hi|] eqn:Emax.
  2:{ apply series_max_None in Emax. rewrite Emax in Hobs. destruct Hobs. }
  apply series_min_Some in Emin. destruct Emin as [Hlo Hleast].
  apply series_max_Some in Emax. destruct Emax as [Hhi Hmost].
  exists lo, hi. split; [reflexivity|]. split; [|split].
  - split; [now apply Hcol|]. intros x Hx. now apply Hleast, Hcol.
  - split; [now apply Hcol|]. intros x Hx. now apply Hmost, Hcol.
  - split; [now apply Hleast | now apply Hmost].
Qed.

(** X3. [get_min_max_date] returns two [NaT] when the venue has no event
    for the asset, and otherwise the first and the last day on which it has
    one, the first not after the last. *)
Theorem get_min_max_date_cases (df : frame) (asset venue : string) :
  ((forall d, ~ observed_on df asset venue d)
   /\ get_min_max_date df asset venue = (NaT, NaT))
  \/ (exists lo hi,
        get_min_max_date df asset venue = (Some lo, Some hi)
        /\ is_min_day df asset venue lo /\ is_max_day df asset venue hi
        /\ lo <= hi).
Proof.
  destruct (map Ev.Date
              (filter (fun e => (Ev.Base e =? asset)%string
                                && (Ev.Exchange e =? venue)%string) df))
    as [|d col] eqn:Ecol.
  - left.
    assert (Hnone : forall d, ~ observed_on df asset venue d).
    { intros d Hd. apply get_min_max_date_observed in Hd.
      rewrite Ecol in Hd. destruct Hd. }
    split; [exact Hnone | now apply get_min_max_date_NaT].
  - right.
    assert (Hobs : observed_on df asset venue d).
    { apply get_min_max_date_observed. rewrite Ecol. now left. }
    destruct (observed_min_max _ _ _ _ Hobs) as (lo & hi & E & Hlo & Hhi & Hd).
    exists lo, hi. split; [exact E|]. split; [exact Hlo|].
    split; [exact Hhi | lia].
Qed.

(** A day on which both venues are observed lies in the window. *)
Lemma window_contains (df : frame) (asset exchange_a exchange_b : string)
                      (d : Z) :
  observed_on df asset exchange_a d -> observed_on df asset exchange_b d ->
  in_window (window df asset exchange_a exchange_b) d = true.
Proof.
  intros Ha Hb.
  destruct (observed_min_max _ _ _ _ Ha) as (lo_a & hi_a & Ea & _ & _ & Hda).
  destruct (observed_min_max _ _ _ _ Hb) as (lo_b & hi_b & Eb & _ & _ & Hdb).
  unfold window. rewrite Ea, Eb.
  unfold in_window, py_max, py_min, ts_lt. cbn [fst snd].
  destruct (lo_a <? lo_b) eqn:E1; destruct (hi_b <? hi_a) eqn:E2;
    cbn [ts_le]; rewrite andb_true_iff, !Z.leb_le; lia.
Qed.

Lemma cumulative_has_row (sub : frame) (e : Ev.t) :
  In e sub -> exists c, In c (cumulative sub) /\ cum_key c = ev_key e.
Proof.
  intros He. apply (in_map ev_key) in He.
  rewrite <- groupby_sum_In, <- cumulative_keys in He.
  apply in_map_iff in He. destruct He as (c & Hk & Hc). eauto.
Qed.

(** ** Which days the result has *)

(** X4. The result has a row for a day exactly when [exchange_a] sorts
    strictly before [exchange_b] and both venues have an event of the asset
    on that day. *)
Theorem result_days_are_common_days
  (df : frame) (asset exchange_a exchange_b : string) (d : Z) :
  In d (map Pair.Date (process_data df asset exchange_a exchange_b))
  <-> String.ltb exchange_a exchange_b = true
      /\ observed_on df asset exchange_a d
      /\ observed_on df asset exchange_b d.
Proof.
  rewrite in_map_iff. split.
  - intros (p & <- & Hp).
    pose proof (process_data_row_events _ _ _ _ _ Hp)
      as (ea & eb & Hea & Heb & Ka & Kb).
    apply process_data_In in Hp.
    destruct Hp as (_ & _ & _ & _ & _ & _ & _ & _ & _ & Hlt & _).
    apply subset_In in Hea, Heb. unfold ev_key in Ka, Kb.
    injection Ka as Ba Xa Da. injection Kb as Bb Xb Db.
    split; [exact Hlt|]. split; [exists ea | exists eb]; tauto.
  - intros (Hlt & Ha & Hb).
    pose proof (window_contains _ _ _ _ _ Ha Hb) as Hw.
    destruct Ha as (ea & Hea & Ba & Xa & Da).
    destruct Hb as (eb & Heb & Bb & Xb & Db).
    assert (Hsa : In ea (subset df asset exchange_a exchange_b)).
    { apply subset_In. rewrite Da. tauto. }
    assert (Hsb : In eb (subset df asset exchange_a exchange_b)).
    { apply subset_In. rewrite Db. tauto. }
    apply cumulative_has_row in Hsa, Hsb.
    destruct Hsa as (l & Hl & Kl), Hsb as (r & Hr & Kr).
    unfold cum_key, ev_key in Kl, Kr.
    injection Kl as Bl Xl Dl. injection Kr as Br Xr Dr.
    exists (with_advantages (join_rows l r)). split; [simpl; congruence|].
    apply process_data_In. exists l, r.
    repeat split; try assumption; congruence.
Qed.

Lemma StronglySorted_le_NoDup (l : list Z) :
  StronglySorted Z.le l -> NoDup l -> StronglySorted Z.lt l.
Proof.
  induction 1 as [|x l Hs IH Hx]; intros Hnd; constructor.
  - apply IH. now apply NoDup_cons_iff in Hnd.
  - apply NoDup_cons_iff in Hnd. destruct Hnd as [Hnotin _].
    rewrite Forall_forall in *. intros y Hy.
    specialize (Hx y Hy). assert (x <> y) by congruence. lia.
Qed.

(** X5. The days of the rows that [process_data] returns are strictly
    ascending: at most one row per day. *)
Theorem result_one_row_per_day
  (df : frame) (asset exchange_a exchange_b : string) :
  StronglySorted Z.lt
    (map Pair.Date (process_data df asset exchange_a exchange_b)).
Proof.
  apply StronglySorted_le_NoDup.
  - unfold process_data. cbv zeta. rewrite result_by_rows.
    apply rows_sorted_by_day, cumulative_sorted.
  - unfold process_data. cbv zeta.
    apply NoDup_map_transfer with (f := pair_key).
    + intros x y Hx Hy Hd. apply filter_In in Hx, Hy.
      destruct Hx as [_ Hx], Hy as [_ Hy]. unfold requested in Hx, Hy.
      rewrite !andb_true_iff, !String.eqb_eq in Hx, Hy.
      unfold pair_key. destruct Hx as [[-> ->] ->], Hy as [[-> ->] ->].
      now rewrite Hd.
    + apply NoDup_map_filter, pair_df_2025_NoDup, cumulative_NoDup.
Qed.

(** ** The daily totals of the result *)

Lemma filter_key_single {A : Type} (kf : A -> key) (l : list A) (r : A) :
  NoDup (map kf l) -> In r l ->
  filter (fun x => key_eqb (kf x) (kf r)) l = [r].
Proof.
  induction l as [|x l IH]; simpl; intros Hnd Hin; [destruct Hin|].
  apply NoDup_cons_iff in Hnd. destruct Hnd as [Hx Hnd].
  destruct (key_eqb (kf x) (kf r)) eqn:E.
  - apply key_eqb_eq in E.
    assert (Hr : x = r).
    { destruct Hin as [Hr|Hr]; [exact Hr|].
      exfalso. apply Hx. rewrite E. now apply in_map. }
    subst x. f_equal.
    rewrite (filter_ext_in _ (fun _ => false)), filter_false; [reflexivity|].
    intros y Hy. apply key_eqb_neq. intros Ey.
    apply Hx. rewrite <- Ey. now apply in_map.
  - apply IH; [exact Hnd|]. destruct Hin as [Hr|Hr]; [|exact Hr].
    subst x. now rewrite key_eqb_refl in E.
Qed.

(** The daily total of a row of the daily table is the sum of the rates of
    the events that carry its key. *)
Lemma groupby_sum_row_total (sub : frame) (r : Daily.t) :
  In r (groupby_sum sub) ->
  Daily.DailyFunding r
  = Qsum (map Ev.FundingRate
              (filter (fun e => key_eqb (ev_key e) (daily_key r)) sub)).
Proof.
  intros Hr.
  rewrite <- (groupby_sum_total (fun k => key_eqb k (daily_key r)) sub).
  rewrite (filter_key_single daily_key _ r (groupby_sum_NoDup sub) Hr).
  unfold Qsum. cbn [map fold_right]. ring.
Qed.

(** A row of the cumulative table carries the columns of a row of the daily
    table. *)
Lemma cumulative_In_daily (sub : frame) (c : Cum.t) :
  In c (cumulative sub) ->
  exists r, In r (groupby_sum sub)
            /\ daily_key r = cum_key c
            /\ Daily.DailyFunding r = Cum.DailyFunding c.
Proof.
  unfold cumulative. cbv zeta. rewrite sort_values_groupby_sum.
  intros Hc. apply groupby_cumsum_In in Hc.
  destruct Hc as (pre & r & post & E & ->).
  exists r. split; [rewrite E; apply in_elt|]. split; reflexivity.
Qed.

(** Inside the window, [subset] keeps every event of a requested venue. *)
Lemma subset_day (df : frame) (asset exchange_a exchange_b venue : string)
                 (d : Z) :
  in_window (window df asset exchange_a exchange_b) d = true ->
  venue = exchange_a \/ venue = exchange_b ->
  filter (fun e => key_eqb (ev_key e) (asset, venue, d))
         (subset df asset exchange_a exchange_b)
  = filter (fun e => key_eqb (ev_key e) (asset, venue, d)) df.
Proof.
  intros Hw Hv. unfold subset. cbv zeta. rewrite filter_filter.
  apply filter_ext. intros e.
  destruct (key_eqb (ev_key e) (asset, venue, d)) eqn:E;
    [|apply andb_false_r].
  apply key_eqb_eq in E. unfold ev_key in E. injection E as Hb Hx Hd.
  rewrite Hb, Hx, Hd, Hw, String.eqb_refl. cbn [andb].
  rewrite andb_true_r. apply orb_true_iff. rewrite !String.eqb_eq.
  destruct Hv; auto.
Qed.

(** In exact arithmetic, on every row that [process_data] returns,
    [DailyFunding_a] and [DailyFunding_b] are the sums of the raw rates of the asset on that day,
    on [exchange_a] and on [exchange_b]. *)
Theorem daily_funding_is_day_total
  (df : frame) (asset exchange_a exchange_b : string) (p : Pair.t) :
  In p (process_data df asset exchange_a exchange_b) ->
  Pair.DailyFunding_a p = day_total df asset exchange_a (Pair.Date p)
  /\ Pair.DailyFunding_b p = day_total df asset exchange_b (Pair.Date p).
Proof.
  intros Hp.
  pose proof (process_data_row_events _ _ _ _ _ Hp)
    as (ea & _ & Hea & _ & Ka & _).
  apply subset_In in Hea. destruct Hea as (_ & Hw & _).
  unfold ev_key in Ka. injection Ka as _ _ Da. rewrite Da in Hw.
  apply process_data_In in Hp.
  destruct Hp as (l & r & Hl & Hr & Hbl & Hbr & Hd & Ha & Hb & _ & ->).
  apply cumulative_In_daily in Hl, Hr.
  destruct Hl as (dl & Hdl & Kl & Fl), Hr as (dr & Hdr & Kr & Fr).
  apply groupby_sum_row_total in Hdl, Hdr.
  cbn [with_advantages join_rows Pair.DailyFunding_a Pair.DailyFunding_b
       Pair.Date Merged.Date Merged.DailyFunding_a Merged.DailyFunding_b]
    in *.
  unfold day_total. rewrite <- Fl, <- Fr, Hdl, Hdr, Kl, Kr.
  unfold cum_key. rewrite Hbl, Hbr, Ha, Hb, <- Hd.
  rewrite !subset_day by (auto; exact Hw). split; reflexivity.
Qed.

(** ** What the result depends on *)

Lemma get_min_max_date_filter (F : Ev.t -> bool) (df : frame)
                              (asset venue : string) :
  (forall e, Ev.Base e = asset -> Ev.Exchange e = venue -> F e = true) ->
  get_min_max_date (filter F df) asset venue
  = get_min_max_date df asset venue.
Proof.
  intros HF. unfold get_min_max_date. cbv zeta. rewrite filter_filter.
  rewrite (filter_ext
             (fun e => F e && ((Ev.Base e =? asset)%string
                               && (Ev.Exchange e =? venue)%string))
             (fun e => (Ev.Base e =? asset)%string
                       && (Ev.Exchange e =? venue)%string));
    [reflexivity|].
  intros e.
  destruct ((Ev.Base e =? asset)%string && (Ev.Exchange e =? venue)%string)
    eqn:E; [|apply andb_false_r].
  apply andb_true_iff in E. rewrite !String.eqb_eq in E.
  now rewrite HF by tauto.
Qed.

(** X7. The result depends only on the events of the asset on the two
    requested venues: dropping every other event from the table beforehand
    changes nothing. *)
Theorem result_ignores_other_events
  (df : frame) (asset exchange_a exchange_b : string) :
  process_data
    (filter (fun e => (Ev.Base e =? asset)%string
                      && ((Ev.Exchange e =? exchange_a)%string
                          || (Ev.Exchange e =? exchange_b)%string)) df)
    asset exchange_a exchange_b
  = process_data df asset exchange_a exchange_b.
Proof.
  set (F := fun e => (Ev.Base e =? asset)%string
                     && ((Ev.Exchange e =? exchange_a)%string
                         || (Ev.Exchange e =? exchange_b)%string)).
  assert (Hw : window (filter F df) asset exchange_a exchange_b
               = window df asset exchange_a exchange_b).
  { unfold window. rewrite !get_min_max_date_filter; [reflexivity| |];
      intros e Hb Hx; unfold F;
      rewrite Hb, Hx, !String.eqb_refl; cbn [andb orb];
      [apply orb_true_r | reflexivity]. }
  assert (Hs : subset (filter F df) asset exchange_a exchange_b
               = subset df asset exchange_a exchange_b).
  { unfold subset. cbv zeta. rewrite Hw, filter_filter.
    apply filter_ext. intros e. unfold F.
    destruct (in_window (window df asset exchange_a exchange_b) (Ev.Date e));
      destruct (Ev.Base e =? asset)%string;
      destruct ((Ev.Exchange e =? exchange_a)%string
                || (Ev.Exchange e =? exchange_b)%string); reflexivity. }
  unfold process_data. cbv zeta. now rewrite Hs.
Qed.

(** ** Distinct values in order of appearance *)

Lemma existsb_string_In (x : string) (l : list string) :
  existsb (String.eqb x) l = true <-> In x l.
Proof.
  rewrite existsb_exists. split.
  - intros (y & Hy & E). apply String.eqb_eq in E. now subst.
  - intros Hx. exists x. split; [exact Hx | apply String.eqb_refl].
Qed.

Lemma existsb_string_not_In (x : string) (l : list string) :
  existsb (String.eqb x) l = false <-> ~ In x l.
Proof.
  rewrite <- existsb_string_In.
  destruct (existsb (String.eqb x) l); split; congruence.
Qed.

Lemma unique_from_In (x : string) (col seen : list string) :
  In x (unique_from seen col) <-> In x col /\ ~ In x seen.
Proof.
  revert seen. induction col as [|y col IH]; intros seen; simpl; [tauto|].
  destruct (existsb (String.eqb y) seen) eqn:E.
  - apply existsb_string_In in E. rewrite IH.
    split; [tauto|]. intros [[<-|Hx] Hs]; tauto.
  - apply existsb_string_not_In in E. simpl. rewrite IH. simpl.
    destruct (string_dec y x) as [<-|Hne]; tauto.
Qed.

Lemma unique_from_NoDup (col seen : list string) :
  NoDup (unique_from seen col).
Proof.
  revert seen. induction col as [|y col IH]; intros seen; simpl;
    [constructor|].
  destruct (existsb (String.eqb y) seen); [apply IH|].
  constructor; [|apply IH].
  rewrite unique_from_In. simpl. tauto.
Qed.

Lemma unique_In (x : string) (col : list string) :
  In x (unique col) <-> In x col.
Proof. unfold unique. rewrite unique_from_In. simpl. tauto. Qed.

Lemma unique_NoDup (col : list string) : NoDup (unique col).
Proof. apply unique_from_NoDup. Qed.

(** ** Pairs of distinct positions *)

Lemma combinations2_In (a b : string) (l : list string) :
  In (a, b) (combinations2 l) -> In a l /\ In b l.
Proof.
  induction l as [|x l IH]; simpl; [tauto|].
  rewrite in_app_iff, in_map_iff.
  intros [(y & [= <- <-] & Hy)|H]; [tauto|].
  apply IH in H. tauto.
Qed.

Lemma combinations2_cons (a b x : string) (l : list string) :
  In (a, b) (combinations2 (x :: l))
  <-> (a = x /\ In b l) \/ In (a, b) (combinations2 l).
Proof.
  simpl. rewrite in_app_iff, in_map_iff. split.
  - intros [(y & [= <- <-] & Hy)|H]; auto.
  - intros [[-> Hb]|H]; [left; exists b; auto | auto].
Qed.

Lemma combinations2_ordered (a b : string) (l : list string) :
  NoDup l -> In (a, b) (combinations2 l) ->
  a <> b /\ ~ In (b, a) (combinations2 l).
Proof.
  induction l as [|x l IH]; intros Hnd Hab; [destruct Hab|].
  apply NoDup_cons_iff in Hnd. destruct Hnd as [Hx Hnd].
  rewrite combinations2_cons in *.
  destruct Hab as [[-> Hb]|Hab].
  - split; [congruence|]. intros [[-> _]|Hba]; [contradiction|].
    apply combinations2_In in Hba. tauto.
  - destruct (IH Hnd Hab) as [Hne Hno]. split; [exact Hne|].
    intros [[-> _]|Hba]; [|contradiction].
    apply combinations2_In in Hab. tauto.
Qed.

Lemma combinations2_total (a b : string) (l : list string) :
  In a l -> In b l -> a <> b ->
  In (a, b) (combinations2 l) \/ In (b, a) (combinations2 l).
Proof.
  induction l as [|x l IH]; intros Ha Hb Hne; [destruct Ha|].
  rewrite !combinations2_cons.
  destruct Ha as [->|Ha], Hb as [->|Hb]; try congruence; auto.
  destruct (IH Ha Hb Hne); auto.
Qed.

Lemma combinations2_NoDup (l : list string) :
  NoDup l -> NoDup (combinations2 l).
Proof.
  induction 1 as [|x l Hx Hnd IH]; simpl; [constructor|].
  apply NoDup_app; [|exact IH|].
  - apply NoDup_map_transfer with (f := fun y : string => y);
      [|now rewrite map_id].
    intros y z _ _ [= E]. exact E.
  - intros [a b] H1 H2. apply in_map_iff in H1.
    destruct H1 as (y & [= <- <-] & _).
    apply combinations2_In in H2. tauto.
Qed.

Lemma combinations2_length (l : list string) :
  (2 * List.length (combinations2 l) + List.length l
   = List.length l * List.length l)%nat.
Proof.
  induction l as [|x l IH]; simpl; [reflexivity|].
  rewrite length_app, length_map. nia.
Qed.

(** The first value to appear is paired first. *)
Lemma unique_from_before (a b : string) (pre post seen : list string) :
  ~ In a seen -> ~ In b seen -> ~ In b pre -> In b post -> a <> b ->
  In (a, b) (combinations2 (unique_from seen (pre ++ a :: post))).
Proof.
  revert seen. induction pre as [|x pre IH]; intros seen Ha Hb Hpre Hpost Hne.
  - simpl. apply existsb_string_not_In in Ha. rewrite Ha.
    apply combinations2_cons. left. split; [reflexivity|].
    apply unique_from_In. simpl. split; [exact Hpost|].
    intros [E|E]; [congruence | contradiction].
  - simpl in Hpre. cbn [app unique_from].
    destruct (existsb (String.eqb x) seen) eqn:E.
    + apply IH; tauto.
    + apply combinations2_cons.
      destruct (string_dec x a) as [->|Hxa].
      * left. split; [reflexivity|]. apply unique_from_In.
        split; [apply in_or_app; right; now right|].
        simpl. intros [?|?]; [congruence | contradiction].
      * right. apply IH; simpl; tauto.
Qed.

(** ** The pairs offered by the selector *)

Lemma exchanges_In (rows : list Row.t) (asset v : string) :
  In v (exchanges rows asset) <-> has_venue rows asset v.
Proof.
  unfold exchanges, has_venue. cbv zeta. rewrite unique_In, in_map_iff.
  split.
  - intros (r & Hv & Hr). apply filter_In in Hr. destruct Hr as [Hr Hb].
    apply String.eqb_eq in Hb. eauto.
  - intros (r & Hr & Hb & Hv). exists r. split; [exact Hv|].
    apply filter_In. split; [exact Hr | now apply String.eqb_eq].
Qed.

Lemma exchange_pairs_In (rows : list Row.t) (asset : string)
                        (p : string * string) :
  In p (exchange_pairs rows asset)
  <-> In p (combinations2 (exchanges rows asset)).
Proof. apply sort_rows_In. Qed.

(** X8. The pair selector offers every unordered pair of distinct venues of
    the asset exactly once, in one orientation only, and the list of pairs
    is in ascending order. *)
Theorem exchange_pairs_each_pair_once (rows : list Row.t) (asset : string) :
  let pairs := exchange_pairs rows asset in
  NoDup pairs
  /\ sorted_by pair_sort_key pairs
  /\ (forall a b, In (a, b) pairs ->
        a <> b /\ has_venue rows asset a /\ has_venue rows asset b
        /\ ~ In (b, a) pairs)
  /\ (forall a b, has_venue rows asset a -> has_venue rows asset b ->
        a <> b -> In (a, b) pairs \/ In (b, a) pairs).
Proof.
  cbv zeta.
  assert (Hnd : NoDup (exchanges rows asset)) by apply unique_NoDup.
  split; [|split; [|split]].
  - eapply Permutation_NoDup; [apply sort_rows_perm|].
    now apply combinations2_NoDup.
  - apply sort_rows_sorted.
  - intros a b Hab. rewrite !exchange_pairs_In in *.
    destruct (combinations2_ordered _ _ _ Hnd Hab) as [Hne Hno].
    apply combinations2_In in Hab. rewrite !exchanges_In in Hab. tauto.
  - intros a b Ha Hb Hne. rewrite !exchange_pairs_In.
    apply combinations2_total; [now apply exchanges_In .. | exact Hne].
Qed.

Lemma exchange_pairs_each_pair_once_witness :
  In ("Y", "X")%string (exchange_pairs y_before_x "BTC")
  /\ ~ In ("X", "Y")%string (exchange_pairs y_before_x "BTC").
Proof.
  assert (Hin : In ("Y", "X")%string (exchange_pairs y_before_x "BTC"))
    by (simpl; auto).
  split; [exact Hin|].
  destruct (exchange_pairs_each_pair_once y_before_x "BTC")
    as (_ & _ & H & _).
  apply (H _ _ Hin).
Defined.

(** X9. The number of pairs offered is n(n-1)/2 for n venues of the asset,
    and no pair is offered exactly when the asset has at most one venue. *)
Theorem exchange_pairs_count (rows : list Row.t) (asset : string) :
  (2 * List.length (exchange_pairs rows asset)
   + List.length (exchanges rows asset)
   = List.length (exchanges rows asset)
     * List.length (exchanges rows asset))%nat
  /\ (exchange_pairs rows asset = [] <->
      forall a b, has_venue rows asset a -> has_venue rows asset b -> a = b).
Proof.
  assert (Hlen : List.length (exchange_pairs rows asset)
                 = List.length (combinations2 (exchanges rows asset))).
  { symmetry. apply Permutation_length, sort_rows_perm. }
  split; [rewrite Hlen; apply combinations2_length|].
  split.
  - intros Hnil a b Ha Hb.
    destruct (string_dec a b) as [E|Hne]; [exact E|].
    apply exchanges_In in Ha, Hb.
    destruct (combinations2_total _ _ _ Ha Hb Hne) as [H|H];
      apply exchange_pairs_In in H; rewrite Hnil in H; destruct H.
  - intros Hone. apply no_rows. intros [a b] Hab.
    apply exchange_pairs_In in Hab.
    destruct (combinations2_ordered _ _ _ (unique_NoDup _) Hab) as [Hne _].
    apply combinations2_In in Hab. rewrite !exchanges_In in Hab.
    apply Hne, Hone; tauto.
Qed.

Lemma exchange_pairs_count_witness :
  exchange_pairs [Row.mk 0 "BTC" "X" (rate 1) 0;
                  Row.mk 300000 "BTC" "X" (rate 2) 0] "BTC" = [].
Proof.
  apply exchange_pairs_count.
  intros a b (ra & Ha & _ & <-) (rb & Hb & _ & <-). simpl in Ha, Hb.
  destruct Ha as [<-|[<-|[]]], Hb as [<-|[<-|[]]]; reflexivity.
Defined.

(** X10. The orientation of an offered pair is the order in which the two
    venues first appear in the table, not the lexicographic one: when the
    asset's venue [a] appears before its venue [b] and [b] sorts before [a],
    the selector offers [(a, b)] and never [(b, a)], and the table computed
    for the offered pair is empty. *)
Theorem offered_pair_in_appearance_order
  (rows pre post : list Row.t) (ra : Row.t) (asset a b : string) :
  rows = pre ++ ra :: post ->
  Row.Base ra = asset -> Row.Exchange ra = a ->
  (forall r, In r pre -> Row.Base r = asset -> Row.Exchange r <> b) ->
  has_venue post asset b ->
  String.ltb b a = true ->
  In (a, b) (exchange_pairs rows asset)
  /\ ~ In (b, a) (exchange_pairs rows asset)
  /\ df_to_display rows asset (a, b) = [].
Proof.
  intros -> Hbase Hexch Hpre Hpost Hlt.
  assert (Hne : a <> b).
  { intros <-. rewrite string_ltb_irrefl in Hlt. discriminate. }
  assert (Hab : In (a, b) (combinations2 (exchanges (pre ++ ra :: post)
                                                    asset))).
  { unfold exchanges. cbv zeta. rewrite filter_app. cbn [filter].
    rewrite Hbase, String.eqb_refl, map_app. cbn [map]. rewrite Hexch.
    apply unique_from_before; simpl; try tauto.
    - rewrite in_map_iff. intros (r & Hr & Hin). apply filter_In in Hin.
      destruct Hin as [Hin Hb]. apply String.eqb_eq in Hb.
      exact (Hpre r Hin Hb Hr).
    - destruct Hpost as (r & Hr & Hb & Hx). apply in_map_iff.
      exists r. split; [exact Hx|]. apply filter_In.
      split; [exact Hr | now apply String.eqb_eq]. }
  split; [now apply exchange_pairs_In|]. split.
  - rewrite exchange_pairs_In.
    now apply (combinations2_ordered _ _ _ (unique_NoDup _) Hab).
  - unfold df_to_display. apply no_rows. intros p Hp.
    apply process_data_In in Hp.
    destruct Hp as (_ & _ & _ & _ & _ & _ & _ & _ & _ & Hab' & _).
    apply string_ltb_asym in Hlt. congruence.
Qed.

Lemma offered_pair_in_appearance_order_witness :
  In ("Y", "X")%string (exchange_pairs y_before_x "BTC")
  /\ ~ In ("X", "Y")%string (exchange_pairs y_before_x "BTC")
  /\ df_to_display y_before_x "BTC" ("Y", "X")%string = [].
Proof.
  apply (offered_pair_in_appearance_order
           y_before_x [] (tl y_before_x) (Row.mk 0 "BTC" "Y" (rate 1) 0)).
  - reflexivity.
  - reflexivity.
  - reflexivity.
  - intros r [].
  - exists (Row.mk 0 "BTC" "X" (rate 2) 0). simpl. auto.
  - reflexivity.
Defined.

(** ** The preselected pair *)

Lemma pair_eqb_eq (p q : string * string) : pair_eqb p q = true <-> p = q.
Proof.
  destruct p as [a b], q as [c d]. unfold pair_eqb. simpl.
  rewrite andb_true_iff, !String.eqb_eq.
  split; [intros [-> ->]; reflexivity | intros [= -> ->]; auto].
Qed.

Lemma index_of_Some (p : string * string) (l : list (string * string))
                    (i : nat) :
  index_of p l = Some i -> nth_error l i = Some p.
Proof.
  revert i. induction l as [|q l IH]; intros i; simpl; [discriminate|].
  destruct (pair_eqb q p) eqn:E.
  - apply pair_eqb_eq in E. intros [= <-]. simpl. now subst.
  - destruct (index_of p l) as [j|]; simpl; [|discriminate].
    intros [= <-]. simpl. now apply IH.
Qed.

Lemma index_of_In (p : string * string) (l : list (string * string)) :
  In p l -> exists i, index_of p l = Some i.
Proof.
  induction l as [|q l IH]; simpl; [tauto|]. intros Hin.
  destruct (pair_eqb q p) eqn:E; [eauto|].
  destruct Hin as [->|Hin].
  - assert (pair_eqb p p = true) by now apply pair_eqb_eq. congruence.
  - destruct (IH Hin) as [i ->]. simpl. eauto.
Qed.

Lemma index_of_None (p : string * string) (l : list (string * string)) :
  ~ In p l -> index_of p l = None.
Proof.
  intros Hno. destruct (index_of p l) as [i|] eqn:E; [|reflexivity].
  apply index_of_Some, nth_error_In in E. contradiction.
Qed.

(** X11. The index preselected in the pair selector is always a position of
    the list of pairs when the list is not empty.  It is the position of the
    pair named by the two query parameters, put in ascending order, when that
    pair is in the list, and 0 when a parameter is missing or empty or the
    pair is not in the list. *)
Theorem exchange_pair_index_in_range
  (exchange_a_query exchange_b_query : option string)
  (pairs : list (string * string)) :
  let i := exchange_pair_index exchange_a_query exchange_b_query pairs in
  (pairs <> [] -> (i < List.length pairs)%nat)
  /\ (forall a b, exchange_a_query = Some a -> exchange_b_query = Some b ->
        a <> ""%string -> b <> ""%string -> In (sorted_pair a b) pairs ->
        nth_error pairs i = Some (sorted_pair a b))
  /\ (forall a b, exchange_a_query = Some a -> exchange_b_query = Some b ->
        ~ In (sorted_pair a b) pairs -> i = 0%nat)
  /\ (exchange_a_query = None \/ exchange_b_query = None
      \/ exchange_a_query = Some ""%string
      \/ exchange_b_query = Some ""%string -> i = 0%nat).
Proof.
  cbv zeta. unfold exchange_pair_index. repeat split.
  - intros Hne.
    destruct (query_pair exchange_a_query exchange_b_query) as [p|];
      [destruct (index_of p pairs) as [i|] eqn:E|].
    + apply index_of_Some in E. apply nth_error_Some. congruence.
    + destruct pairs; [congruence | simpl; lia].
    + destruct pairs; [congruence | simpl; lia].
  - intros a b -> -> Ha Hb Hin. unfold query_pair.
    apply String.eqb_neq in Ha, Hb. rewrite Ha, Hb. simpl.
    destruct (index_of_In _ _ Hin) as [i E]. rewrite E.
    now apply index_of_Some.
  - intros a b -> -> Hno. unfold query_pair.
    destruct (negb (a =? "")%string && negb (b =? "")%string);
      [|reflexivity].
    now rewrite index_of_None.
  - intros [Ha|[Hb|[Ha|Hb]]]; unfold query_pair.
    + now rewrite Ha.
    + rewrite Hb. now destruct exchange_a_query.
    + rewrite Ha. now destruct exchange_b_query.
    + rewrite Hb. destruct exchange_a_query as [a|]; [|reflexivity].
      simpl. now rewrite andb_false_r.
Qed.

Lemma exchange_pair_index_in_range_witness :
  In (sorted_pair "Y" "X") [("A", "B"); ("X", "Y")]%string
  /\ nth_error [("A", "B"); ("X", "Y")]%string
               (exchange_pair_index (Some "Y"%string) (Some "X"%string)
                                    [("A", "B"); ("X", "Y")]%string)
     = Some (sorted_pair "Y" "X").
Proof.
  split; [simpl; auto|].
  destruct (exchange_pair_index_in_range
              (Some "Y"%string) (Some "X"%string)
              [("A", "B"); ("X", "Y")]%string) as (_ & H & _).
  apply (H "Y"%string "X"%string); try reflexivity; try discriminate.
  simpl. auto.
Defined.

(** ** The preselected asset *)

Lemma string_sort_key_leb (x y : string) :
  key_leb (string_sort_key x) (string_sort_key y) = String.leb x y.
Proof.
  unfold key_leb, string_sort_key, String.leb.
  destruct (String.compare x y); reflexivity.
Qed.

Lemma sorted_strings_leb (l : list string) :
  sorted_by string_sort_key l ->
  StronglySorted (fun x y => String.leb x y = true) l.
Proof.
  unfold sorted_by. induction 1 as [|x l Hs IH Hx]; constructor;
    [exact IH|].
  eapply Forall_impl; [|exact Hx].
  intros y Hy. cbv beta in Hy. now rewrite string_sort_key_leb in Hy.
Qed.

Lemma sorted_bases_In (rows : list Row.t) (b : string) :
  In b (sorted_bases rows) <-> exists r, In r rows /\ Row.Base r = b.
Proof.
  unfold sorted_bases, sorted_strings.
  rewrite sort_rows_In, unique_In, in_map_iff.
  split; intros (r & H1 & H2); exists r; tauto.
Qed.

(** X12. The list of assets holds every asset of the table once, in
    ascending order.  The preselected asset is an asset of the table; it is
    the [base] query parameter, or BTC without one, when that is an asset of
    the table, and otherwise the first asset in the lexicographic order; only
    an empty table leaves none. *)
Theorem base_default_is_available
  (query_base : option string) (rows : list Row.t) :
  let bases := sorted_bases rows in
  let wanted := match query_base with Some b => b | None => "BTC"%string end in
  (forall b, In b bases <-> exists r, In r rows /\ Row.Base r = b)
  /\ NoDup bases
  /\ StronglySorted (fun x y => String.leb x y = true) bases
  /\ (base_default query_base bases = None <-> rows = [])
  /\ (forall b, base_default query_base bases = Some b -> In b bases)
  /\ (In wanted bases -> base_default query_base bases = Some wanted)
  /\ (~ In wanted bases ->
      forall b0, base_default query_base bases = Some b0 ->
                 forall b, In b bases -> String.leb b0 b = true).
Proof.
  cbv zeta.
  set (wanted := match query_base with Some b => b | None => "BTC"%string end).
  assert (Hsorted : StronglySorted (fun x y => String.leb x y = true)
                                   (sorted_bases rows)).
  { apply sorted_strings_leb, sort_rows_sorted. }
  assert (Hdef : base_default query_base (sorted_bases rows)
                 = if existsb (String.eqb wanted) (sorted_bases rows)
                   then Some wanted else nth_error (sorted_bases rows) 0)
    by (unfold base_default, default_asset; now destruct query_base).
  split; [|split; [|split; [|split; [|split; [|split]]]]].
  - intros b. apply sorted_bases_In.
  - eapply Permutation_NoDup; [apply sort_rows_perm | apply unique_NoDup].
  - exact Hsorted.
  - rewrite Hdef.
    destruct (existsb (String.eqb wanted) (sorted_bases rows)) eqn:E.
    + apply existsb_string_In, sorted_bases_In in E.
      destruct E as (r & Hr & _).
      split; [discriminate | intros ->; destruct Hr].
    + split.
      * intros Hnone. destruct rows as [|r rows]; [reflexivity|].
        assert (Hin : In (Row.Base r) (sorted_bases (r :: rows))).
        { apply sorted_bases_In. exists r. simpl. auto. }
        destruct (sorted_bases (r :: rows)); [destruct Hin | discriminate].
      * intros ->. reflexivity.
  - intros b. rewrite Hdef.
    destruct (existsb (String.eqb wanted) (sorted_bases rows)) eqn:E.
    + intros [= <-]. now apply existsb_string_In.
    + intros H. now apply nth_error_In in H.
  - intros Hin. rewrite Hdef. apply existsb_string_In in Hin.
    now rewrite Hin.
  - intros Hno b0. rewrite Hdef. apply existsb_string_not_In in Hno.
    rewrite Hno. intros H0 b Hb.
    destruct (sorted_bases rows) as [|x l]; [discriminate|].
    simpl in H0. injection H0 as ->.
    apply StronglySorted_inv in Hsorted. destruct Hsorted as [_ Hall].
    destruct Hb as [<-|Hb].
    + unfold String.leb. now rewrite string_compare_refl.
    + rewrite Forall_forall in Hall. now apply Hall.
Qed.

Lemma base_default_is_available_witness :
  base_default (Some "DOGE"%string)
               (sorted_bases [Row.mk 0 "ETH" "X" (rate 1) 0;
                              Row.mk 0 "BTC" "X" (rate 1) 0;
                              Row.mk 0 "ADA" "X" (rate 1) 0])
  = Some "ADA"%string
  /\ String.leb "ADA" "BTC" = true.
Proof.
  assert (E : base_default (Some "DOGE"%string)
                (sorted_bases [Row.mk 0 "ETH" "X" (rate 1) 0;
                               Row.mk 0 "BTC" "X" (rate 1) 0;
                               Row.mk 0 "ADA" "X" (rate 1) 0])
              = Some "ADA"%string) by reflexivity.
  split; [exact E|].
  destruct (base_default_is_available
              (Some "DOGE"%string)
              [Row.mk 0 "ETH" "X" (rate 1) 0;
               Row.mk 0 "BTC" "X" (rate 1) 0;
               Row.mk 0 "ADA" "X" (rate 1) 0])
    as (_ & _ & _ & _ & _ & _ & H).
  apply (H ltac:(simpl; intros [?|[?|[?|[]]]]; discriminate) _ E).
  simpl. auto.
Defined.

(** ** The start date *)

Lemma floor_day_round (t : Z) :
  floor_day (round_5min t) = (t + 150000) / ms_day.
Proof.
  unfold floor_day, ms_day.
  destruct (round_5min_cases t) as (q & rem & Hms & Hrem & Hcases).
  destruct Hcases
    as [[? ->]|[[? ->]|[(? & [m ->] & ->)|(? & [m ->] & ->)]]];
    Z.div_mod_to_equations; lia.
Qed.

Lemma round_5min_from_midnight (start t : Z) :
  start mod ms_day = 0 ->
  (start <=? round_5min t) = (start - 150000 <=? t).
Proof.
  unfold ms_day. intros Hstart.
  destruct (round_5min_cases t) as (q & rem & Hms & Hrem & Hcases).
  apply Z.mod_divide in Hstart; [|lia]. destruct Hstart as [k Hk].
  destruct (Z.leb_spec (start - 150000) t) as [H|H];
    [apply Z.leb_le | apply Z.leb_gt];
    destruct Hcases
      as [[? ->]|[[? ->]|[(? & [m ->] & ->)|(? & [m ->] & ->)]]];
    lia.
Qed.

(** X13. With a start date at midnight, as the date picker gives it, the
    rows kept are those whose day is the start day or a later one; in terms
    of the file, those whose timestamp is not more than 150 seconds before
    the start. *)
Theorem start_date_keeps_whole_days (csv : list Raw.t) (start : Z) :
  start mod ms_day = 0 ->
  df_tmp (load_data csv) start
  = filter (fun r => floor_day start <=? Row.Date r) (load_data csv)
  /\ df_tmp (load_data csv) start
     = load_data (filter (fun r => start - 150000 <=? Raw.Timestamp r) csv).
Proof.
  intros Hstart. unfold df_tmp, load_data. split.
  - apply filter_ext_in. intros r Hr. apply in_map_iff in Hr.
    destruct Hr as (raw & <- & _). unfold load_row. cbv zeta.
    cbn [Row.Timestamp Row.Date].
    rewrite round_5min_from_midnight by exact Hstart.
    rewrite floor_day_round. unfold floor_day, ms_day in *.
    destruct (Z.leb_spec (start - 150000) (Raw.Timestamp raw)) as [H|H];
      symmetry; [apply Z.leb_le | apply Z.leb_gt];
      Z.div_mod_to_equations; lia.
  - rewrite filter_map_swap. f_equal. apply filter_ext. intros raw.
    unfold load_row. cbv zeta. cbn [Row.Timestamp].
    now apply round_5min_from_midnight.
Qed.

Lemma start_date_keeps_whole_days_witness :
  start_2025 mod ms_day = 0
  /\ map Row.Date (df_tmp (load_data around_midnight) start_2025)
     = [floor_day start_2025].
Proof.
  split; [reflexivity|].
  destruct (start_date_keeps_whole_days around_midnight start_2025
                                        eq_refl) as [_ ->].
  reflexivity.
Defined.

(** X14. Whatever the start date, every row of the table that the chart
    receives has its day on or after the day of the start date. *)
Theorem chart_days_from_start_day
  (csv : list Raw.t) (start : Z) (asset : string)
  (exchange_pair : string * string) (p : Pair.t) :
  In p (df_to_display (df_tmp (load_data csv) start) asset exchange_pair) ->
  floor_day start <= Pair.Date p.
Proof.
  destruct exchange_pair as [a b]. unfold df_to_display. intros Hp.
  apply process_data_row_events in Hp.
  destruct Hp as (ea & _ & Hea & _ & Ka & _).
  apply subset_In in Hea. destruct Hea as (Hea & _).
  apply in_map_iff in Hea. destruct Hea as (r & <- & Hr).
  unfold df_tmp in Hr. apply filter_In in Hr. destruct Hr as [Hr Hts].
  unfold load_data in Hr. apply in_map_iff in Hr.
  destruct Hr as (raw & <- & _).
  unfold ev_key, event_of_row, load_row in Ka. cbv zeta in Ka.
  simpl in Ka. injection Ka as _ _ <-.
  unfold load_row in Hts. cbv zeta in Hts. cbn [Row.Timestamp] in Hts.
  apply Z.leb_le in Hts. unfold floor_day, ms_day.
  apply Z.div_le_mono; lia.
Qed.

Lemma chart_days_from_start_day_witness :
  let chart :=
    df_to_display
      (df_tmp (load_data [Raw.mk 10 "BTC" "X" (rate 1);
                          Raw.mk 20 "BTC" "Y" (rate 2)]) 0)
      "BTC" ("X", "Y")%string in
  In (nth 0 chart scenario_day1) chart
  /\ floor_day 0 <= Pair.Date (nth 0 chart scenario_day1).
Proof.
  cbv zeta.
  assert (Hin : In (nth 0 (df_to_display
                             (df_tmp (load_data
                                        [Raw.mk 10 "BTC" "X" (rate 1);
                                         Raw.mk 20 "BTC" "Y" (rate 2)]) 0)
                             "BTC" ("X", "Y")%string) scenario_day1)
                   (df_to_display
                      (df_tmp (load_data [Raw.mk 10 "BTC" "X" (rate 1);
                                          Raw.mk 20 "BTC" "Y" (rate 2)]) 0)
                      "BTC" ("X", "Y")%string)).
  { apply nth_In. vm_compute. lia. }
  split; [exact Hin|].
  exact (chart_days_from_start_day _ _ _ _ _ Hin).
Defined.

Lemma loaded_timestamp_on_grid_witness :
  start_2025 mod ms_5min = 0
  /\ Row.Timestamp (load_row (Raw.mk start_2025 "BTC" "X" (rate 1)))
     = start_2025.
Proof.
  split; [reflexivity|].
  apply (loaded_timestamp_on_grid (Raw.mk start_2025 "BTC" "X" (rate 1))).
  reflexivity.
Defined.

Lemma daily_funding_is_day_total_witness :
  In scenario_day2 (process_data scenario "BTC" "X" "Y")
  /\ Pair.DailyFunding_a scenario_day2 = day_total scenario "BTC" "X" 2
  /\ Pair.DailyFunding_b scenario_day2 = day_total scenario "BTC" "Y" 2.
Proof.
  assert (Hin : In scenario_day2 (process_data scenario "BTC" "X" "Y")).
  { rewrite scenario_result. right. left. reflexivity. }
  split; [exact Hin|].
  exact (daily_funding_is_day_total scenario "BTC" "X" "Y" _ Hin).
Defined.

(** X15. A pair that the selector offers with its second venue sorting
    before its first cannot be named by the query parameters: in either
    order of the two parameters the preselected index is 0. *)
Theorem query_misses_reversed_pair
  (rows : list Row.t) (asset a b : string) :
  In (a, b) (exchange_pairs rows asset) ->
  String.ltb b a = true ->
  exchange_pair_index (Some a) (Some b) (exchange_pairs rows asset) = 0%nat
  /\ exchange_pair_index (Some b) (Some a) (exchange_pairs rows asset)
     = 0%nat.
Proof.
  intros Hab Hlt.
  assert (Hno : ~ In (b, a) (exchange_pairs rows asset)).
  { rewrite exchange_pairs_In in *.
    now apply (combinations2_ordered _ _ _ (unique_NoDup _) Hab). }
  apply index_of_None in Hno.
  pose proof (string_ltb_asym _ _ Hlt) as Hge.
  unfold exchange_pair_index, query_pair, sorted_pair.
  rewrite Hlt, Hge.
  split.
  - destruct (negb (a =? "")%string && negb (b =? "")%string);
      [now rewrite Hno | reflexivity].
  - destruct (negb (b =? "")%string && negb (a =? "")%string);
      [now rewrite Hno | reflexivity].
Qed.

Lemma query_misses_reversed_pair_witness :
  In ("Y", "X")%string (exchange_pairs y_before_x "BTC")
  /\ exchange_pair_index (Some "Y"%string) (Some "X"%string)
                         (exchange_pairs y_before_x "BTC") = 0%nat.
Proof.
  assert (Hin : In ("Y", "X")%string (exchange_pairs y_before_x "BTC"))
    by (simpl; auto).
  split; [exact Hin|].
  exact (proj1 (query_misses_reversed_pair y_before_x "BTC" "Y" "X"
                                           Hin eq_refl)).
Defined.

(** * The binary64 stages *)

(** ** The grouped sum *)


Lemma f64_add_to_group_keys (k : key) (v : float)
                            (groups : list (key * float)) :
  map fst (Float64.add_to_group k v groups)
  = if existsb (key_eqb k) (map fst groups) then map fst groups
    else map fst groups ++ [k].
Proof.
  induction groups as [|[k' s] groups IH]; simpl; [reflexivity|].
  destruct (key_eqb k k') eqn:E; simpl; [reflexivity|].
  rewrite IH. now destruct (existsb (key_eqb k) (map fst groups)).
Qed.

Lemma f64_add_to_group_In (k k0 : key) (v : float)
                          (groups : list (key * float)) :
  In k0 (map fst (Float64.add_to_group k v groups))
  <-> k0 = k \/ In k0 (map fst groups).
Proof.
  rewrite f64_add_to_group_keys.
  destruct (existsb (key_eqb k) (map fst groups)) eqn:E.
  - apply existsb_key_In in E. split; [auto|]. intros [->|H]; assumption.
  - rewrite in_app_iff. simpl. intuition congruence.
Qed.


Lemma f64_group_sums_In (k : key) (rows : Float64.frame) :
  In k (map fst (Float64.group_sums rows))
  <-> In k (map Float64.ev_key rows).
Proof.
  unfold Float64.group_sums.
  assert (H : forall groups,
             In k (map fst
                     (fold_left
                        (fun g e => Float64.add_to_group
                                      (Float64.ev_key e)
                                      (Float64.Ev.FundingRate e) g)
                        rows groups))
             <-> In k (map fst groups) \/ In k (map Float64.ev_key rows)).
  { induction rows as [|e rows IH]; intros groups; simpl; [tauto|].
    rewrite IH, f64_add_to_group_In. intuition congruence. }
  rewrite H. simpl. tauto.
Qed.







(** ** The daily table *)

Lemma f64_daily_key_of_group (g : key * float) :
  Float64.daily_key (Float64.daily_of_group g) = fst g.
Proof. now destruct g as [[[b e] d] s]. Qed.

Lemma f64_groupby_sum_keys (rows : Float64.frame) :
  map Float64.daily_key (Float64.groupby_sum rows)
  = map fst (sort_rows fst (Float64.group_sums rows)).
Proof.
  unfold Float64.groupby_sum. rewrite map_map.
  apply map_ext, f64_daily_key_of_group.
Qed.

Lemma f64_groupby_sum_sorted (rows : Float64.frame) :
  sorted_by Float64.daily_key (Float64.groupby_sum rows).
Proof.
  apply sorted_by_map.
  eapply sorted_by_ext; [|apply sort_rows_sorted].
  intros g. symmetry. apply f64_daily_key_of_group.
Qed.

Lemma f64_sort_values_groupby_sum (rows : Float64.frame) :
  Float64.sort_values (Float64.groupby_sum rows) = Float64.groupby_sum rows.
Proof. apply sort_rows_id, f64_groupby_sum_sorted. Qed.


Lemma f64_groupby_sum_In (k : key) (rows : Float64.frame) :
  In k (map Float64.daily_key (Float64.groupby_sum rows))
  <-> In k (map Float64.ev_key rows).
Proof.
  rewrite f64_groupby_sum_keys, <- f64_group_sums_In.
  split; apply Permutation_in; [symmetry|];
    apply Permutation_map, sort_rows_perm.
Qed.


(** ** The grouped cumulative sum *)



Lemma f64_groupby_cumsum_keys (acc : group -> float)
                              (rows : list Float64.Daily.t) :
  map Float64.cum_key (Float64.groupby_cumsum acc rows)
  = map Float64.daily_key rows.
Proof.
  revert acc. induction rows as [|r rows IH]; intros acc;
    cbn [Float64.groupby_cumsum]; [reflexivity|].
  destruct (PrimFloat.is_nan (Float64.Daily.DailyFunding r));
    cbn [map]; now rewrite IH.
Qed.



(** ** Rows of the join and of the result *)


Lemma f64_cumulative_keys (sub : Float64.frame) :
  map Float64.cum_key (Float64.cumulative sub)
  = map Float64.daily_key (Float64.groupby_sum sub).
Proof.
  unfold Float64.cumulative. cbv zeta.
  now rewrite f64_groupby_cumsum_keys, f64_sort_values_groupby_sum.
Qed.

Lemma f64_cumulative_In_event (sub : Float64.frame) (c : Float64.Cum.t) :
  In c (Float64.cumulative sub) ->
  exists e, In e sub /\ Float64.ev_key e = Float64.cum_key c.
Proof.
  intros Hc. apply (in_map Float64.cum_key) in Hc.
  rewrite f64_cumulative_keys, f64_groupby_sum_In in Hc.
  apply in_map_iff in Hc. destruct Hc as (e & He & Hin). eauto.
Qed.





(** ** The claims that depend on rounding *)





(** C9, as the code has it.  On the four events of the scenario, read as
    float64, the daily totals are 0.0001 and 0.0002 for X and -0.0001 and
    0.0001 for Y; the running totals are 0.0001 and 0.00030000000000000003
    for X and -0.0001 and 0.0 for Y; the row of day 2 for the pair (X, Y) has
    [along_bshort] = -0.00030000000000000003 and [blong_ashort] =
    0.00030000000000000003. *)
Theorem float_scenario_values :
  Float64.cumulative (Float64.subset Float64.scenario "BTC" "X" "Y")
  = [ Float64.Cum.mk "BTC" "X" 1 0.0001 0.0001;
      Float64.Cum.mk "BTC" "X" 2 0.0002 0.00030000000000000003;
      Float64.Cum.mk "BTC" "Y" 1 (-0.0001) (-0.0001);
      Float64.Cum.mk "BTC" "Y" 2 0.0001 0 ]%float
  /\ Float64.process_data Float64.scenario "BTC" "X" "Y"
     = [ Float64.Pair.mk "BTC" 1 "X" 0.0001 0.0001 "Y" (-0.0001) (-0.0001)
                         (-0.0002) 0.0002;
         Float64.Pair.mk "BTC" 2 "X" 0.0002 0.00030000000000000003
                         "Y" 0.0001 0
                         (-0.00030000000000000003)
                         0.00030000000000000003 ]%float
  /\ 0.00030000000000000003%float = PrimFloat.add 0.0001 0.0002
  /\ PrimFloat.eqb 0.00030000000000000003 0.0003 = false.
Proof. repeat split. Qed.

(** C9 as the specification states it fails in float64: the result has no
    row of day 2 with running total 0.0003 and advantages -0.0003 and
    0.0003. *)
Lemma float_scenario_is_not_decimal :
  ~ (exists day1,
       Float64.process_data Float64.scenario "BTC" "X" "Y"
       = [ day1;
           Float64.Pair.mk "BTC" 2 "X" 0.0002 0.0003 "Y" 0.0001 0
                           (-0.0003) 0.0003 ]%float).
Proof.
  intros [day1 H].
  apply (f_equal
           (fun rows =>
              PrimFloat.eqb
                (nth 1 (map Float64.Pair.CumulativeFunding_a rows) 0%float)
                0.0003%float)) in H.
  vm_compute in H. discriminate H.
Qed.


